(** * dmarc-validator: the DMARC record parser and lookup handler

    A shallow embedding of [routes/api/dmarc.ts] and the properties of its
    record parser, policy summary and request handler.

    Strings.  A JavaScript string is a sequence of UTF-16 code units.  The
    development works with the code units 0..255 (ISO 8859-1), written as
    Rocq's [string] of [ascii]: every string literal of the source lies in
    that range, and the range is closed under the string operations the
    source uses ([trim], [toLowerCase], [split], [join], [startsWith],
    [includes], the three regular expressions of the handler).

    Numbers.  A JavaScript number is an IEEE 754 binary64 value; it is
    modelled with the Corelib's [spec_float] at precision 53 and maximal
    exponent 1024. *)

From Stdlib Require Import String Ascii List ZArith NArith Lia Bool.
From Stdlib Require Import SpecFloat DecimalString DecimalPos DecimalFacts.
Import ListNotations.

Local Open Scope list_scope.
Local Open Scope string_scope.

(* ================================================================= *)
(** ** The JavaScript built-ins the source calls *)

Module JS.

(** *** Characters *)

(** [WhiteSpace] and [LineTerminator] code points below 256:
    TAB, LF, VT, FF, CR, SP and NBSP. *)
Definition isWhiteSpace (c : ascii) : bool :=
  let n := N_of_ascii c in
  ((9 <=? n) && (n <=? 13) || (n =? 32) || (n =? 160))%N.

(** [LineTerminator] code points below 256 (the ones the regular
    expression atom [.] refuses): LF and CR. *)
Definition isLineTerminator (c : ascii) : bool :=
  let n := N_of_ascii c in ((n =? 10) || (n =? 13))%N.

(** Lower-case mapping of one code unit of ISO 8859-1: A..Z, and the
    accented capitals U+00C0..U+00DE except the multiplication sign. *)
Definition toLowerCaseChar (c : ascii) : ascii :=
  let n := N_of_ascii c in
  if ((65 <=? n) && (n <=? 90) || (192 <=? n) && (n <=? 214)
      || (216 <=? n) && (n <=? 222))%N
  then ascii_of_N (n + 32) else c.

(** *** String.prototype *)

Fixpoint toLowerCase (s : string) : string :=
  match s with
  | EmptyString => EmptyString
  | String c s' => String (toLowerCaseChar c) (toLowerCase s')
  end.

Fixpoint trimStart (s : string) : string :=
  match s with
  | EmptyString => EmptyString
  | String c s' => if isWhiteSpace c then trimStart s' else s
  end.

Fixpoint trimEnd (s : string) : string :=
  match s with
  | EmptyString => EmptyString
  | String c s' =>
      match trimEnd s' with
      | EmptyString => if isWhiteSpace c then EmptyString else String c EmptyString
      | t => String c t
      end
  end.

Definition trim (s : string) : string := trimEnd (trimStart s).

(** [s.startsWith(search)]. *)
Fixpoint startsWith (s search : string) {struct search} : bool :=
  match search with
  | EmptyString => true
  | String a search' =>
      match s with
      | EmptyString => false
      | String b s' => Ascii.eqb a b && startsWith s' search'
      end
  end.

(** [s.includes(search)]. *)
Fixpoint includes (s search : string) : bool :=
  startsWith s search
  || match s with
     | EmptyString => false
     | String _ s' => includes s' search
     end.

(** [s.split(sep)] for a separator of one code unit.  The result always
    has a first element, so it is returned as that element and the
    remaining ones: this is the shape the destructuring
    [const [tag, ...valueParts] = part.split("=")] takes apart. *)
Fixpoint split (sep : ascii) (s : string) : string * list string :=
  match s with
  | EmptyString => (EmptyString, [])
  | String c s' =>
      let (h, t) := split sep s' in
      if Ascii.eqb c sep then (EmptyString, h :: t) else (String c h, t)
  end.

(** The array [s.split(sep)] itself. *)
Definition splitArray (sep : ascii) (s : string) : list string :=
  let (h, t) := split sep s in h :: t.

(** [arr.join(sep)]. *)
Fixpoint join (sep : string) (arr : list string) : string :=
  match arr with
  | [] => EmptyString
  | [x] => x
  | x :: rest => x ++ sep ++ join sep rest
  end.

(** [Boolean(s)] for a string: the empty string is the only falsy one. *)
Definition truthy (s : string) : bool :=
  match s with EmptyString => false | String _ _ => true end.

(** *** The regular expressions of the handler *)

(** The rest of [s] after the literal [p], when [s] starts with it. *)
Fixpoint afterPrefix (p s : string) : option string :=
  match p, s with
  | EmptyString, _ => Some s
  | String _ _, EmptyString => None
  | String a p', String b s' =>
      if Ascii.eqb a b then afterPrefix p' s' else None
  end.

(** [s.replace(/^_dmarc\./, "")]. *)
Definition replace_dmarc_prefix (s : string) : string :=
  match afterPrefix "_dmarc." s with
  | Some rest => rest
  | None => s
  end.

(** [s.replace(/^https?:\/\//, "")]: the literal [http], a greedy optional
    [s], and the literal [://]; when the [s] is taken no backtracking can
    succeed, since the code unit after [http] is then not a colon. *)
Definition replace_scheme (s : string) : string :=
  match afterPrefix "http" s with
  | None => s
  | Some r =>
      let r' := match afterPrefix "s" r with Some r'' => r'' | None => r end in
      match afterPrefix "://" r' with
      | Some rest => rest
      | None => s
      end
  end.

(** Does [.*] consume the whole of [s] (no line terminator in it)? *)
Fixpoint dotStarToEnd (s : string) : bool :=
  match s with
  | EmptyString => true
  | String c s' => negb (isLineTerminator c) && dotStarToEnd s'
  end.

(** [s.replace(/\/.*$/, "")].  The expression has no flag: [.] refuses
    line terminators and [$] holds at the end of the input only, so a
    slash starts a match exactly when no line terminator follows it; the
    leftmost such slash and everything after it is replaced. *)
Fixpoint replace_path (s : string) : string :=
  match s with
  | EmptyString => EmptyString
  | String c s' =>
      if Ascii.eqb c "/" && dotStarToEnd s' then EmptyString
      else String c (replace_path s')
  end.

End JS.

(* ================================================================= *)
(** ** Numbers *)

Module Number.

(** binary64. *)
Definition prec : Z := 53.
Definition emax : Z := 1024.

(** The Number value of a mathematical integer: round to nearest, ties to
    even, and an infinity past the largest finite value. *)
Definition ofInteger (z : Z) : spec_float := binary_normalize prec emax z 0 false.

Definition div (x y : spec_float) : spec_float := SFdiv prec emax x y.
Definition sub (x y : spec_float) : spec_float := SFsub prec emax x y.

(** *** parseInt *)

Definition decimalDigit (c : ascii) : option Z :=
  let n := N_of_ascii c in
  if ((48 <=? n) && (n <=? 57))%N then Some (Z.of_N n - 48)%Z else None.

Definition hexDigit (c : ascii) : option Z :=
  let n := N_of_ascii c in
  if ((48 <=? n) && (n <=? 57))%N then Some (Z.of_N n - 48)%Z
  else if ((97 <=? n) && (n <=? 102))%N then Some (Z.of_N n - 87)%Z
  else if ((65 <=? n) && (n <=? 70))%N then Some (Z.of_N n - 55)%Z
  else None.

(** The mathematical integer written by the longest prefix of [s] made of
    digits; [acc] is [None] until a digit has been read. *)
Fixpoint readDigits (digit : ascii -> option Z) (radix : Z) (s : string)
         (acc : option Z) : option Z :=
  match s with
  | EmptyString => acc
  | String c s' =>
      match digit c with
      | Some d =>
          let a := match acc with Some a => a | None => 0%Z end in
          readDigits digit radix s' (Some (radix * a + d)%Z)
      | None => acc
      end
  end.

(** A leading minus or plus sign is taken off; the flag tells a minus. *)
Definition skipSign (s : string) : bool * string :=
  match s with
  | String c r =>
      if Ascii.eqb c "-" then (true, r)
      else if Ascii.eqb c "+" then (false, r)
      else (false, s)
  | EmptyString => (false, s)
  end.

(** The digits read after the sign: in radix 16 past a [0x] or [0X]
    prefix, in radix 10 otherwise. *)
Definition mathInt (s : string) : option Z :=
  match JS.afterPrefix "0x" s with
  | Some r => readDigits hexDigit 16 r None
  | None =>
      match JS.afterPrefix "0X" s with
      | Some r => readDigits hexDigit 16 r None
      | None => readDigits decimalDigit 10 s None
      end
  end.

(** [parseInt(s)] with no radix argument: leading white space and one
    sign are skipped, a [0x] or [0X] prefix selects radix 16, the digits
    up to the first other code unit are read; no digit gives NaN, and
    the integer read is rounded to the nearest Number.  (ECMAScript lets
    an implementation replace the decimal digits after the twentieth by
    zeros; the nearest Number is taken here.) *)
Definition parseInt (s : string) : spec_float :=
  let '(neg, s1) := skipSign (JS.trimStart s) in
  match mathInt s1 with
  | None => S754_nan
  | Some Z0 => S754_zero neg
  | Some n => ofInteger (if neg then - n else n)
  end.

(** *** Math.round *)

(** The values [Math.round] returns: NaN, an infinity, a signed zero or
    an integer other than zero. *)
Inductive IntegralNumber : Type :=
| INaN
| IInfinity (neg : bool)
| IZero (neg : bool)
| IInteger (z : Z).

(** [Math.round(x)]: the integer closest to [x], the one nearer to
    +infinity on a tie; a result of zero keeps the sign of [x]. *)
Definition Math_round (x : spec_float) : IntegralNumber :=
  match x with
  | S754_nan => INaN
  | S754_infinity s => IInfinity s
  | S754_zero s => IZero s
  | S754_finite s m e =>
      let sm := cond_Zopp s (Zpos m) in
      if (0 <=? e)%Z then IInteger (sm * 2 ^ e)
      else
        let k := ((2 * sm + 2 ^ (- e)) / 2 ^ (- e + 1))%Z in
        if (k =? 0)%Z then IZero s else IInteger k
  end.

(** *** Number to string *)

Definition decimal (n : Z) : string := NilZero.string_of_int (Z.to_int n).

(** Does the decimal candidate [c] denote the same Number as [v]? *)
Definition sameNumber (c v : Z) : bool :=
  (0 <? c)%Z && SFeqb (ofInteger c) (ofInteger v).

(** The multiple of the largest power of ten that still denotes the
    Number [v]; of two such multiples the closer one, and on a tie the
    one with the even last digit. *)
Fixpoint shortest (fuel : nat) (v : Z) (p : Z) : Z :=
  match fuel with
  | O => v
  | S fuel' =>
      let q := (10 ^ p)%Z in
      let lo := (v / q * q)%Z in
      let hi := (lo + q)%Z in
      match sameNumber lo v, sameNumber hi v with
      | true, true =>
          match (v - lo ?= hi - v)%Z with
          | Lt => lo
          | Gt => hi
          | Eq => if Z.even (v / q) then lo else hi
          end
      | true, false => lo
      | false, true => hi
      | false, false => shortest fuel' v (p - 1)
      end
  end.

Fixpoint stripZeros (fuel : nat) (c : Z) : Z :=
  match fuel with
  | O => c
  | S fuel' => if (c mod 10 =? 0)%Z then stripZeros fuel' (c / 10) else c
  end.

(** [Number::toString] of a positive integral Number [v]: the decimal
    digits of the shortest numeral that denotes [v], in exponent notation
    from 10^21 on.  An integer below 2^53 is its own shortest numeral: the
    Numbers around it are at most 1 apart, and a numeral with fewer digits
    is a multiple of ten at least 1 away. *)
Definition positiveToString (v : Z) : string :=
  if (v <? 2 ^ 53)%Z then decimal v
  else
    let n := String.length (decimal v) in
    let c := shortest (S n) v (Z.of_nat n) in
    let digits := decimal c in
    let n' := String.length digits in
    if (n' <=? 21)%nat then digits
    else
      let s := decimal (stripZeros n' c) in
      let exponent := "e+" ++ decimal (Z.of_nat n' - 1) in
      match s with
      | String d EmptyString => String d exponent
      | String d rest => String d ("." ++ rest ++ exponent)
      | EmptyString => exponent
      end.

(** [Number::toString] (radix 10) on the values of [Math.round]. *)
Definition toString (x : IntegralNumber) : string :=
  match x with
  | INaN => "NaN"
  | IInfinity neg => if neg then "-Infinity" else "Infinity"
  | IZero _ => "0"
  | IInteger z =>
      if (z <? 0)%Z then "-" ++ positiveToString (- z) else positiveToString z
  end.

End Number.

Import Number.

(* ================================================================= *)
(** ** Values and JSON payloads *)

(** The run-time values a tag description can be.  The description
    functions are typed [string], but property reads of an object literal
    also reach [Object.prototype]: [policies[value]] with the value
    [toString] is a built-in function, and [tagDescriptions["constructor"]]
    is [Object], which called on a string returns a String object. *)
Inductive JsValue : Type :=
| VString (s : string)
| VStringObject (s : string)
| VFunction (name : string).

(** The properties an object literal inherits from [Object.prototype],
    with the name of the built-in function each holds.  Deno deletes the
    [__proto__] accessor from [Object.prototype] at start-up, so that name
    is an absent property like any other. *)
Definition ObjectPrototype : list (string * string) :=
  [ ("constructor", "Object");
    ("__defineGetter__", "__defineGetter__");
    ("__defineSetter__", "__defineSetter__");
    ("hasOwnProperty", "hasOwnProperty");
    ("__lookupGetter__", "__lookupGetter__");
    ("__lookupSetter__", "__lookupSetter__");
    ("isPrototypeOf", "isPrototypeOf");
    ("propertyIsEnumerable", "propertyIsEnumerable");
    ("toString", "toString");
    ("valueOf", "valueOf");
    ("toLocaleString", "toLocaleString") ].

Fixpoint assoc {A : Type} (key : string) (l : list (string * A)) : option A :=
  match l with
  | [] => None
  | (k, v) :: rest => if String.eqb key k then Some v else assoc key rest
  end.

(** [table[key]] for an object literal [table] whose own properties are
    strings. *)
Definition getProperty (table : list (string * string)) (key : string)
  : option JsValue :=
  match assoc key table with
  | Some s => Some (VString s)
  | None =>
      match assoc key ObjectPrototype with
      | Some name => Some (VFunction name)
      | None => None
      end
  end.

(** [Boolean(v)] for a property read: [undefined] and the empty string are
    falsy. *)
Definition truthyValue (v : option JsValue) : bool :=
  match v with
  | None => false
  | Some (VString s) => JS.truthy s
  | Some _ => true
  end.

(** [`${v}`]: the string a value converts to inside a template literal. *)
Definition templateString (v : JsValue) : string :=
  match v with
  | VString s => s
  | VStringObject s => s
  | VFunction name => "function " ++ name ++ "() { [native code] }"
  end.

#[warnings="-register-all"]
Inductive Json : Type :=
| JNull
| JBool (b : bool)
| JString (s : string)
| JNumber (z : Z)
| JArray (items : list Json)
| JObject (fields : list (string * Json)).

(** [JSON.stringify] of a number: NaN and the infinities become [null]. *)
Definition jsonNumber (x : IntegralNumber) : Json :=
  match x with
  | INaN => JNull
  | IInfinity _ => JNull
  | IZero _ => JNumber 0
  | IInteger z => JNumber z
  end.

(** The field [key] of a JSON object. *)
Definition field (key : string) (j : Json) : option Json :=
  match j with
  | JObject fields => assoc key fields
  | _ => None
  end.

Definition keys (j : Json) : list string :=
  match j with
  | JObject fields => map fst fields
  | _ => []
  end.

(* ================================================================= *)
(** ** The record parser *)

Record DmarcTag : Type := {
  tag : string;
  value : string;
  description : JsValue
}.

(** [a || b] on a property read [a]. *)
Definition orElse (a : option JsValue) (b : JsValue) : JsValue :=
  match a with
  | Some v => if truthyValue a then v else b
  | None => b
  end.

Definition tagDescriptions_p (value : string) : JsValue :=
  let policies :=
    [ ("none", "No action taken on failing emails (monitoring only)");
      ("quarantine",
       "Failing emails should be treated as suspicious (e.g., moved to spam)");
      ("reject", "Failing emails should be rejected outright") ] in
  orElse (getProperty policies value) (VString ("Policy: " ++ value)).

Definition tagDescriptions_sp (value : string) : JsValue :=
  let policies :=
    [ ("none", "No action for subdomains");
      ("quarantine", "Quarantine failing emails from subdomains");
      ("reject", "Reject failing emails from subdomains") ] in
  VString ("Subdomain policy: "
           ++ templateString (orElse (getProperty policies value) (VString value))).

Definition tagDescriptions_adkim (value : string) : JsValue :=
  if String.eqb value "s"
  then VString "DKIM alignment: Strict (exact domain match required)"
  else VString "DKIM alignment: Relaxed (organizational domain match allowed)".

Definition tagDescriptions_aspf (value : string) : JsValue :=
  if String.eqb value "s"
  then VString "SPF alignment: Strict (exact domain match required)"
  else VString "SPF alignment: Relaxed (organizational domain match allowed)".

Definition tagDescriptions_fo (value : string) : JsValue :=
  let options :=
    [ ("0", "Generate failure report if all mechanisms fail");
      ("1", "Generate failure report if any mechanism fails");
      ("d", "Generate failure report on DKIM failure");
      ("s", "Generate failure report on SPF failure") ] in
  VString ("Failure reporting: "
           ++ templateString (orElse (getProperty options value) (VString value))).

Definition tagDescriptions_ri (value : string) : JsValue :=
  VString ("Report interval: " ++ value ++ " seconds ("
           ++ toString (Math_round (div (parseInt value) (ofInteger 3600)))
           ++ " hours)").

(** The own properties of the object literal [tagDescriptions]. *)
Definition tagDescriptions : list (string * (string -> JsValue)) :=
  [ ("v", fun value => VString ("DMARC version: " ++ value));
    ("p", tagDescriptions_p);
    ("sp", tagDescriptions_sp);
    ("rua", fun value => VString ("Aggregate reports sent to: " ++ value));
    ("ruf", fun value => VString ("Forensic reports sent to: " ++ value));
    ("pct", fun value =>
              VString ("Policy applies to " ++ value ++ "% of failing emails"));
    ("adkim", tagDescriptions_adkim);
    ("aspf", tagDescriptions_aspf);
    ("fo", tagDescriptions_fo);
    ("rf", fun value => VString ("Report format: " ++ value));
    ("ri", tagDescriptions_ri) ].

(** [tagDescriptions[tagName]], as a function to call.  [tagName] is the
    result of [toLowerCase]; [constructor] is the one inherited property
    whose name has no capital letter (lemma [inherited_lowercase] below),
    and it holds [Object], which wraps its string argument in a String
    object. *)
Definition descriptionFn (tagName : string) : option (string -> JsValue) :=
  match assoc tagName tagDescriptions with
  | Some f => Some f
  | None => if String.eqb tagName "constructor" then Some VStringObject else None
  end.

(** The body of the loop of [parseDmarcRecord]: the tag of one part. *)
Definition parsePart (part : string) : DmarcTag :=
  let '(tag, valueParts) := JS.split "=" part in
  let value := JS.trim (JS.join "=" valueParts) in
  let tagName := JS.toLowerCase (JS.trim tag) in
  let description :=
    match descriptionFn tagName with
    | Some f => f value
    | None => VString (tagName ++ ": " ++ value)
    end in
  {| tag := tagName; value := value; description := description |}.

(** [record.split(";").map((p) => p.trim()).filter(Boolean)]. *)
Definition parts (record : string) : list string :=
  filter JS.truthy (map JS.trim (JS.splitArray ";" record)).

(** The [for ... of] loop pushes one tag per part onto [tags]. *)
Definition parseDmarcRecord (record : string) : list DmarcTag :=
  fold_left (fun tags part => (tags ++ [parsePart part])%list) (parts record) [].

(* ================================================================= *)
(** ** The policy summary *)

Definition getPolicyDescription (policy : string) : string :=
  if String.eqb policy "reject" then
    "This domain has a strict DMARC policy. Emails that fail DMARC authentication will be rejected by receiving mail servers. This is the strongest protection against email spoofing."
  else if String.eqb policy "quarantine" then
    "This domain has a moderate DMARC policy. Emails that fail DMARC authentication may be treated as suspicious and placed in spam/junk folders."
  else if String.eqb policy "none" then
    "This domain has a monitoring-only DMARC policy. No action is taken on failing emails, but reports may be collected. This provides no protection against spoofing."
  else "Unknown policy type.".

(* ================================================================= *)
(** ** The request handler *)

(** What [Deno.resolveDns(name, "TXT")] hands back for one record: the
    array of its character strings, or (the other branch of the
    [Array.isArray] test) one string. *)
Inductive TxtRecord : Type :=
| Chunks (chunks : list string)
| Single (text : string).

(** What a rejected promise carries into the [catch] clause. *)
Inductive Thrown : Type :=
| ErrorInstance (message : string)
| OtherValue.

Inductive DnsOutcome : Type :=
| Resolved (records : list TxtRecord)
| Rejected (err : Thrown).

Record Response : Type := {
  status : Z;
  body : Json
}.

(** [Response.json(data, { status })]; the status is 200 when not given. *)
Definition Response_json (data : Json) (status : Z) : Response :=
  {| status := status; body := data |}.

(** The handler's interactions with its environment, in the order it
    makes them. *)
Inductive Prog (A : Type) : Type :=
| Ret (a : A)
| PerformanceNow (k : spec_float -> Prog A)
| ResolveDns (name : string) (k : DnsOutcome -> Prog A).

Arguments Ret {A} a.
Arguments PerformanceNow {A} k.
Arguments ResolveDns {A} name k.

(** [JSON.stringify] of a tag: a String object is written as its string,
    and a property holding a function is left out. *)
Definition tagToJson (t : DmarcTag) : Json :=
  JObject
    ([ ("tag", JString (tag t)); ("value", JString (value t)) ]
     ++ match description t with
        | VString s => [ ("description", JString s) ]
        | VStringObject s => [ ("description", JString s) ]
        | VFunction _ => []
        end)%list.

(** [(Array.isArray(r) ? r.join("") : r)]. *)
Definition recordText (r : TxtRecord) : string :=
  match r with
  | Chunks chunks => JS.join "" chunks
  | Single text => text
  end.

Definition isDmarc (r : string) : bool :=
  JS.startsWith (JS.toLowerCase r) "v=dmarc1".

(** [domain.replace(/^_dmarc\./, "").replace(/^https?:\/\//, "")
       .replace(/\/.*$/, "")]. *)
Definition cleanDomainOf (domain : string) : string :=
  JS.replace_path (JS.replace_scheme (JS.replace_dmarc_prefix domain)).

(** [err instanceof Error ? err.message : "DMARC lookup failed"]. *)
Definition errorMessageOf (err : Thrown) : string :=
  match err with
  | ErrorInstance message => message
  | OtherValue => "DMARC lookup failed"
  end.

(** The [catch] clause. *)
Definition handler_catch (cleanDomain : string) (err : Thrown) : Response :=
  let errorMessage := errorMessageOf err in
  if JS.includes errorMessage "no record" then
    Response_json
      (JObject [ ("success", JBool false);
                 ("error", JString ("No DMARC record found for " ++ cleanDomain
                      ++ ". The domain may not have DMARC configured.")) ])
      404
  else
    Response_json
      (JObject [ ("success", JBool false); ("error", JString errorMessage) ])
      500.

(** [policyTag?.value || "none"]. *)
Definition policyOf (tags : list DmarcTag) : string :=
  let policyTag := find (fun t => String.eqb (tag t) "p") tags in
  match policyTag with
  | Some t => if JS.truthy (value t) then value t else "none"
  | None => "none"
  end.

(** The rest of the [try] block once the resolver has answered. *)
Definition handler_resolved (cleanDomain : string) (records : list TxtRecord)
           (queryTime : IntegralNumber) : Response :=
  let dmarcRecord := find isDmarc (map recordText records) in
  match dmarcRecord with
  | Some (String _ _ as dmarcRecord) =>
      let tags := parseDmarcRecord dmarcRecord in
      let policy := policyOf tags in
      Response_json
        (JObject [ ("success", JBool true);
                   ("domain", JString cleanDomain);
                   ("record", JString dmarcRecord);
                   ("tags", JArray (map tagToJson tags));
                   ("policy", JString policy);
                   ("policyDescription", JString (getPolicyDescription policy));
                   ("queryTime", jsonNumber queryTime) ])
        200
  | _ =>
      (* [!dmarcRecord]: [undefined], or the empty string *)
      Response_json
        (JObject [ ("success", JBool false);
                   ("error", JString ("No DMARC record found for " ++ cleanDomain)) ])
        404
  end.

(** [handler.GET], from the value of [url.searchParams.get("domain")]. *)
Definition handler (domain : option string) : Prog Response :=
  match domain with
  | Some (String _ _ as domain) =>
      let cleanDomain := cleanDomainOf domain in
      let dmarcDomain := "_dmarc." ++ cleanDomain in
      PerformanceNow (fun startTime =>
      ResolveDns dmarcDomain (fun outcome =>
        match outcome with
        | Resolved records =>
            PerformanceNow (fun endTime =>
              let queryTime := Math_round (sub endTime startTime) in
              Ret (handler_resolved cleanDomain records queryTime))
        | Rejected err => Ret (handler_catch cleanDomain err)
        end))
  | _ =>
      (* [!domain]: [null], or the empty string *)
      Ret (Response_json
             (JObject [ ("success", JBool false);
                        ("error", JString "Domain is required") ])
             400)
  end.

(** *** Running the handler *)

(** The environment of one request: the successive readings of
    [performance.now()] and the resolver's answer to each name. *)
Record World : Type := {
  clock : nat -> spec_float;
  resolveDns : string -> DnsOutcome
}.

(** The response of a run, and the names it asked the resolver for. *)
Fixpoint run {A : Type} (w : World) (tick : nat) (p : Prog A) : A * list string :=
  match p with
  | Ret a => (a, [])
  | PerformanceNow k => run w (S tick) (k (clock w tick))
  | ResolveDns name k =>
      let (a, queries) := run w tick (k (resolveDns w name)) in
      (a, name :: queries)
  end.

Definition GET (w : World) (domain : option string) : Response :=
  fst (run w 0 (handler domain)).

Definition queriesOf (w : World) (domain : option string) : list string :=
  snd (run w 0 (handler domain)).

(* ================================================================= *)
(** ** Vocabulary of the statements *)

(** The code unit [c] occurs in [s]. *)
Fixpoint occurs (c : ascii) (s : string) : bool :=
  match s with
  | EmptyString => false
  | String a s' => Ascii.eqb a c || occurs c s'
  end.

(** [u] is a run of consecutive code units of [s]. *)
Definition infix (u s : string) : Prop :=
  exists pre post, s = pre ++ u ++ post.

(** [x] is the first element of [l] that satisfies [P]. *)
Definition firstSuch {A : Type} (P : A -> Prop) (l : list A) (x : A) : Prop :=
  exists pre post, l = (pre ++ x :: post)%list /\ P x /\ forall y, In y pre -> ~ P y.

(** [text] starts with [v=dmarc1], letter case aside. *)
Definition qualifies (text : string) : Prop :=
  exists rest, JS.toLowerCase text = "v=dmarc1" ++ rest.

(** In the world [w], the request for [domain] reaches the resolver, which
    answers, and [record] is the text the handler picks from the answer. *)
Definition selects (w : World) (domain record : string) : Prop :=
  domain <> ""
  /\ exists records,
       resolveDns w ("_dmarc." ++ cleanDomainOf domain) = Resolved records
       /\ firstSuch qualifies (map recordText records) record.

Definition isPolicyTag (t : DmarcTag) : Prop := tag t = "p".

(** The body of an error response. *)
Definition errorBody (message : string) : Json :=
  JObject [ ("success", JBool false); ("error", JString message) ].

Definition monitoringOnly : string :=
  "This domain has a monitoring-only DMARC policy. No action is taken on failing emails, but reports may be collected. This provides no protection against spoofing.".



(** *** Domain normalization as the specification words it *)

(** [s] without the leading [p], when [s] starts with [p]. *)
Definition stripLeading (p s : string) : string :=
  match JS.afterPrefix p s with
  | Some rest => rest
  | None => s
  end.

(** [s] up to its first [c], the whole of [s] when [c] does not occur. *)
Fixpoint beforeFirst (c : ascii) (s : string) : string :=
  match s with
  | EmptyString => EmptyString
  | String a s' => if Ascii.eqb a c then EmptyString else String a (beforeFirst c s')
  end.

(** Strip a leading [_dmarc.], then a leading [http://] or [https://],
    then everything from the first slash on. *)
Definition normalizeSpec (domain : string) : string :=
  let s1 := stripLeading "_dmarc." domain in
  let s2 :=
    match JS.afterPrefix "http://" s1 with
    | Some rest => rest
    | None => stripLeading "https://" s1
    end in
  beforeFirst "/" s2.

(** The code unit U+000A. *)
Definition LF : string := String (ascii_of_nat 10) EmptyString.

(** *** Sample environments *)

(** A resolver with a DMARC record for [example.com] split in two
    character strings behind an SPF record, an SPF record alone for
    [plain.example], no record for [absent.example], and no service for
    any other name. *)
Definition sampleResolver (name : string) : DnsOutcome :=
  if String.eqb name "_dmarc.example.com" then
    Resolved [ Single "v=spf1 -all";
               Chunks ["v=DMARC1; p=quar"; "antine; rua=mailto:d@example.com"] ]
  else if String.eqb name "_dmarc.plain.example" then
    Resolved [ Chunks ["v=spf1 -all"] ]
  else if String.eqb name "_dmarc.absent.example" then
    Rejected (ErrorInstance "no record found for Query { name: _dmarc.absent.example }")
  else Rejected (ErrorInstance "proto error: io error: connection refused").

Definition sampleWorld : World :=
  {| clock := fun tick => ofInteger (1000 + 42 * Z.of_nat tick);
     resolveDns := sampleResolver |}.

(** A world whose resolver answers every name with the same records. *)
Definition worldWith (records : list TxtRecord) : World :=
  {| clock := fun tick => ofInteger (1000 + 42 * Z.of_nat tick);
     resolveDns := fun _ => Resolved records |}.

(* ================================================================= *)
(** ** The island: the hash of the page and the lookup action *)

Module Island.

(** Does [\s*$] match the whole of [s]? *)
Fixpoint allWhiteSpace (s : string) : bool :=
  match s with
  | EmptyString => true
  | String c s' => JS.isWhiteSpace c && allWhiteSpace s'
  end.

(** Does [\/?\s*$] match the whole of [s]?  When the slash is taken and
    the rest fails, the only other try is without it, and then the slash
    itself is not white space. *)
Definition hashTail (s : string) : bool :=
  allWhiteSpace s
  || match s with
     | String c s' => Ascii.eqb c "/" && allWhiteSpace s'
     | EmptyString => false
     end.

(** The group [(.+?)] at the start of [s]: the lazy quantifier takes one
    code unit, none of them a line terminator, and one more each time the
    rest of the expression fails. *)
Fixpoint hashGroup (s : string) : option string :=
  match s with
  | EmptyString => None
  | String c s' =>
      if JS.isLineTerminator c then None
      else if hashTail s' then Some (String c EmptyString)
      else match hashGroup s' with
           | Some g => Some (String c g)
           | None => None
           end
  end.

(** [parseHash]: the first group of [hash.match(/^#(.+?)\/?\s*$/)], or
    [null]. *)
Definition parseHash (hash : string) : option string :=
  match hash with
  | String c rest => if Ascii.eqb c "#" then hashGroup rest else None
  | EmptyString => None
  end.

(** [Boolean(v)] for a property read on parsed JSON. *)
Definition truthyJson (v : option Json) : bool :=
  match v with
  | None => false
  | Some JNull => false
  | Some (JBool b) => b
  | Some (JString s) => JS.truthy s
  | Some (JNumber z) => negb (z =? 0)%Z
  | Some (JArray _) => true
  | Some (JObject _) => true
  end.

(** The signals of the component that [handleLookup] reads and writes. *)
Record Signals : Type := {
  domain : string;
  isLoading : bool;
  result : option Json;
  error : option Json
}.

(** What [await fetch(...)] followed by [await response.json()] gives:
    the parsed body, or a rejection of either promise. *)
Inductive Fetched : Type :=
| Body (data : Json)
| Failed.

(** [handleLookup], given what a request with the [domain] parameter
    fetches: the signals when it returns, and the parameters of the
    requests it made. *)
Definition handleLookup (fetch : string -> Fetched) (s : Signals)
  : Signals * list string :=
  let domainValue := JS.trim (domain s) in
  if negb (JS.truthy domainValue) then
    ({| domain := domain s; isLoading := isLoading s; result := None;
        error := Some (JString "Please enter a domain name") |}, [])
  else
    let caught :=
      {| domain := domain s; isLoading := false; result := None;
         error := Some (JString "Failed to perform DMARC lookup") |} in
    (match fetch domainValue with
     | Failed => caught
     | Body JNull => caught (* reading [success] of [null] throws *)
     | Body data =>
         if negb (truthyJson (field "success" data)) then
           let message :=
             match field "error" data with
             | Some e => if truthyJson (Some e) then e
                         else JString "DMARC lookup failed"
             | None => JString "DMARC lookup failed"
             end in
           {| domain := domain s; isLoading := false; result := None;
              error := Some message |}
         else
           {| domain := domain s; isLoading := false; result := Some data;
              error := None |}
     end,
     [domainValue]).

(** The text [{tag.tag}={tag.value}] the island shows for a tag. *)
Definition renderTag (t : DmarcTag) : string := tag t ++ "=" ++ value t.

End Island.

(** The API route as the island reaches it: the request carries the
    parameter as given, and the body of the response is parsed back. *)
Definition serverFetch (w : World) (domainValue : string) : Island.Fetched :=
  Island.Body (body (GET w (Some domainValue))).

(** The names of the own properties of [tagDescriptions]. *)
Definition knownTags : list string := map fst tagDescriptions.

(** [s] is empty or starts with a code unit that is not white space. *)
Definition noLeadingSpace (s : string) : Prop :=
  match s with
  | EmptyString => True
  | String c _ => JS.isWhiteSpace c = false
  end.

(** No code unit of [s] is white space or a semicolon. *)
Fixpoint wordy (s : string) : bool :=
  match s with
  | EmptyString => true
  | String c s' => negb (JS.isWhiteSpace c) && negb (Ascii.eqb c ";") && wordy s'
  end.

(** The signals show an outcome: an error that the page displays and no
    result, or a result whose [success] is truthy and no error. *)
Definition settled (s : Island.Signals) : Prop :=
  (Island.result s = None
   /\ exists m, Island.error s = Some m /\ Island.truthyJson (Some m) = true)
  \/ (Island.error s = None
      /\ exists data,
           Island.result s = Some data
           /\ Island.truthyJson (field "success" data) = true).

(** The last code unit of [s], if any. *)
Fixpoint lastChar (s : string) : option ascii :=
  match s with
  | EmptyString => None
  | String c EmptyString => Some c
  | String _ s' => lastChar s'
  end.

(* ================================================================= *)
(** ** Strings: splitting, joining, trimming *)

Lemma append_empty_r (s : string) : s ++ "" = s.
Proof. induction s as [|c s IH]; simpl; [reflexivity | now rewrite IH]. Qed.

Lemma append_assoc (a b c : string) : (a ++ b) ++ c = a ++ b ++ c.
Proof. induction a as [|x a IH]; simpl; [reflexivity | now rewrite IH]. Qed.

Lemma infix_refl (s : string) : infix s s.
Proof. exists "", "". simpl. now rewrite append_empty_r. Qed.

Lemma infix_trans (a b c : string) : infix a b -> infix b c -> infix a c.
Proof.
  intros (p1 & q1 & ->) (p2 & q2 & ->).
  exists (p2 ++ p1), (q1 ++ q2).
  now rewrite !append_assoc.
Qed.

Lemma infix_empty (s : string) : infix "" s.
Proof. exists "", s. reflexivity. Qed.

Lemma infix_cons (c : ascii) (u s : string) : infix u s -> infix u (String c s).
Proof. intros (p & q & ->). now exists (String c p), q. Qed.

Lemma join_cons (sep x : string) (y : string) (rest : list string) :
  JS.join sep (x :: y :: rest) = x ++ sep ++ JS.join sep (y :: rest).
Proof. reflexivity. Qed.

Lemma join_char_cons (sep : string) (c : ascii) (h : string) (t : list string) :
  JS.join sep (String c h :: t) = String c (JS.join sep (h :: t)).
Proof. destruct t; reflexivity. Qed.

(** Joining the pieces of a split with the separator gives the string
    back. *)
Lemma join_split (sep : ascii) (s : string) :
  JS.join (String sep "") (JS.splitArray sep s) = s.
Proof.
  unfold JS.splitArray.
  induction s as [|c s IH]; simpl; [reflexivity|].
  destruct (JS.split sep s) as [h t].
  destruct (Ascii.eqb_spec c sep) as [->|_].
  - rewrite join_cons, IH. reflexivity.
  - rewrite join_char_cons, IH. reflexivity.
Qed.

Lemma split_no_separator (sep : ascii) (s : string) :
  occurs sep s = false -> JS.split sep s = (s, []).
Proof.
  induction s as [|c s IH]; simpl; [reflexivity|].
  intros H. apply orb_false_iff in H as [Hc Hs].
  rewrite (IH Hs), Hc. reflexivity.
Qed.

Lemma split_at_first (sep : ascii) (a b : string) :
  occurs sep a = false ->
  JS.split sep (a ++ String sep b) = (a, JS.splitArray sep b).
Proof.
  unfold JS.splitArray.
  induction a as [|c a IH]; simpl; intros H.
  - destruct (JS.split sep b) as [h t]. now rewrite Ascii.eqb_refl.
  - apply orb_false_iff in H as [Hc Ha].
    rewrite (IH Ha). destruct (JS.split sep b) as [h t]. now rewrite Hc.
Qed.

(** A split is the only way to cut a string into pieces free of the
    separator. *)
Lemma split_join (sep : ascii) (pieces : list string) :
  pieces <> [] ->
  Forall (fun s => occurs sep s = false) pieces ->
  JS.splitArray sep (JS.join (String sep "") pieces) = pieces.
Proof.
  induction pieces as [|x rest IH]; [congruence|].
  intros _ Hall. inversion Hall as [|? ? Hx Hrest]; subst.
  destruct rest as [|y rest].
  - simpl. unfold JS.splitArray. now rewrite split_no_separator.
  - rewrite join_cons. simpl (String sep "" ++ _).
    unfold JS.splitArray at 1. rewrite split_at_first by assumption.
    f_equal. apply IH; [discriminate | assumption].
Qed.

Lemma fold_push {A B : Type} (f : A -> B) (l : list A) (acc : list B) :
  fold_left (fun tags x => (tags ++ [f x])%list) l acc = (acc ++ map f l)%list.
Proof.
  revert acc. induction l as [|x l IH]; intros acc; simpl.
  - now rewrite List.app_nil_r.
  - rewrite IH, <- List.app_assoc. reflexivity.
Qed.

Lemma parseDmarcRecord_map (record : string) :
  parseDmarcRecord record = map parsePart (parts record).
Proof. unfold parseDmarcRecord. now rewrite fold_push. Qed.

(* ================================================================= *)
(** ** The record parser: order, count and fields *)

Lemma truthy_nonempty (s : string) : JS.truthy s = negb (String.eqb s "").
Proof. destruct s; reflexivity. Qed.

Lemma parsePart_with_equals (a b : string) :
  occurs "=" a = false ->
  tag (parsePart (a ++ "=" ++ b)) = JS.toLowerCase (JS.trim a)
  /\ value (parsePart (a ++ "=" ++ b)) = JS.trim b.
Proof.
  intros Ha. unfold parsePart. simpl ("=" ++ b).
  rewrite (split_at_first "=" a b Ha).
  rewrite (join_split "=" b). split; reflexivity.
Qed.

Lemma parsePart_without_equals (part : string) :
  occurs "=" part = false ->
  tag (parsePart part) = JS.toLowerCase (JS.trim part)
  /\ value (parsePart part) = "".
Proof.
  intros H. unfold parsePart. rewrite (split_no_separator "=" part H).
  split; reflexivity.
Qed.

(** C1.  Cut the record at its semicolons, trim every segment and drop the
    empty ones: [parseDmarcRecord] returns one tag per remaining segment,
    in the same left-to-right order, so the number of tags is the number
    of those segments; the empty record has no tag. *)
Theorem parseDmarcRecord_order (record : string) (segments : list string) :
  segments <> [] ->
  JS.join ";" segments = record ->
  Forall (fun s => occurs ";" s = false) segments ->
  let kept := filter (fun s => negb (String.eqb s "")) (map JS.trim segments) in
  parseDmarcRecord record = map parsePart kept
  /\ List.length (parseDmarcRecord record) = List.length kept
  /\ parseDmarcRecord "" = [].
Proof.
  intros Hne Hjoin Hfree kept.
  assert (Hparts : parts record = kept).
  { unfold parts, kept. rewrite <- Hjoin, (split_join ";" segments Hne Hfree).
    apply filter_ext. intros s. apply truthy_nonempty. }
  rewrite parseDmarcRecord_map, Hparts.
  repeat split. now rewrite length_map.
Qed.

Lemma parseDmarcRecord_order_witness :
  JS.join ";" ["v=DMARC1"; " p=reject"; ""; " pct=100 "; " "]
  = "v=DMARC1; p=reject;; pct=100 ; "
  /\ parseDmarcRecord "v=DMARC1; p=reject;; pct=100 ; "
     = map parsePart ["v=DMARC1"; "p=reject"; "pct=100"]
  /\ List.length (parseDmarcRecord "v=DMARC1; p=reject;; pct=100 ; ") = 3%nat.
Proof.
  split; [reflexivity|].
  pose proof (parseDmarcRecord_order "v=DMARC1; p=reject;; pct=100 ; "
                ["v=DMARC1"; " p=reject"; ""; " pct=100 "; " "]) as H.
  destruct H as (H1 & H2 & _).
  - discriminate.
  - reflexivity.
  - repeat constructor.
  - split; [exact H1 | exact H2].
Defined.

(** C2.  Each part (a trimmed, non-empty segment) is cut at its first
    equals sign only.  The tag at the part's position has for [tag] the
    text before that sign, trimmed and lower-cased, and for [value] all
    the text after it, later equals signs included, trimmed; a part with
    no equals sign has the empty value. *)
Theorem parseDmarcRecord_fields (record : string) (i : nat) (part : string) :
  nth_error (parts record) i = Some part ->
  exists t,
    nth_error (parseDmarcRecord record) i = Some t
    /\ (forall a b, part = a ++ "=" ++ b -> occurs "=" a = false ->
          tag t = JS.toLowerCase (JS.trim a) /\ value t = JS.trim b)
    /\ (occurs "=" part = false ->
          tag t = JS.toLowerCase (JS.trim part) /\ value t = "").
Proof.
  intros Hi. exists (parsePart part). split; [|split].
  - rewrite parseDmarcRecord_map. now apply map_nth_error.
  - intros a b -> Ha. now apply parsePart_with_equals.
  - apply parsePart_without_equals.
Qed.

Lemma parseDmarcRecord_fields_witness :
  exists t,
    nth_error (parseDmarcRecord "v=DMARC1; RUA = mailto:a=b ;flag") 1 = Some t
    /\ tag t = "rua" /\ value t = "mailto:a=b".
Proof.
  destruct (parseDmarcRecord_fields "v=DMARC1; RUA = mailto:a=b ;flag" 1
              "RUA = mailto:a=b" eq_refl) as (t & Ht & Heq & _).
  exists t. split; [exact Ht|].
  exact (Heq "RUA " " mailto:a=b" eq_refl eq_refl).
Defined.

(* ================================================================= *)
(** ** The handler: which response a run gives *)

Lemma startsWith_spec (s p : string) :
  JS.startsWith s p = true <-> exists rest, s = p ++ rest.
Proof.
  revert s. induction p as [|a p IH]; intros s; simpl.
  - split; [now exists s | reflexivity].
  - destruct s as [|b s].
    + split; [discriminate | intros (rest & H); discriminate].
    + rewrite andb_true_iff, IH. split.
      * intros (Hab & rest & ->). apply Ascii.eqb_eq in Hab as ->. now exists rest.
      * intros (rest & H). injection H as -> ->.
        split; [apply Ascii.eqb_refl | now exists rest].
Qed.

Lemma isDmarc_qualifies (text : string) : isDmarc text = true <-> qualifies text.
Proof. apply startsWith_spec. Qed.

Lemma isDmarc_nonempty (text : string) : isDmarc text = true -> text <> "".
Proof. intros H ->. discriminate. Qed.

Lemma includes_spec (s p : string) : JS.includes s p = true <-> infix p s.
Proof.
  induction s as [|c s IH]; simpl.
  - rewrite orb_false_r, startsWith_spec. split.
    + intros (rest & H). now exists "", rest.
    + intros ([|? ?] & post & H); [now exists post | discriminate].
  - rewrite orb_true_iff, IH, startsWith_spec. split.
    + intros [(rest & H) | H]; [now exists "", rest | now apply infix_cons].
    + intros ([|x pre] & post & H); [left; now exists post|].
      right. injection H as _ ->. now exists pre, post.
Qed.

Lemma find_firstSuch {A : Type} (f : A -> bool) (l : list A) (x : A) :
  find f l = Some x <-> firstSuch (fun y => f y = true) l x.
Proof.
  induction l as [|a l IH]; simpl.
  - split; [discriminate | intros ([|? ?] & post & H & _); discriminate].
  - destruct (f a) eqn:Ha.
    + split.
      * intros [= ->]. exists [], l. repeat split; [assumption | intros y []].
      * intros ([|b pre] & post & H & Hx & Hpre).
        -- now injection H as ->.
        -- injection H as Hab _. subst b. exfalso.
           apply (Hpre a); [now left | assumption].
    + rewrite IH. split.
      * intros (pre & post & -> & Hx & Hpre). exists (a :: pre), post.
        repeat split; [assumption|]. intros y [<- | Hy]; [congruence | now apply Hpre].
      * intros ([|b pre] & post & H & Hx & Hpre).
        -- injection H as -> _. congruence.
        -- injection H as Hab Hl. subst b l. exists pre, post.
           repeat split; [assumption|]. intros y Hy. apply Hpre. now right.
Qed.

Lemma find_none_iff {A : Type} (f : A -> bool) (l : list A) :
  find f l = None <-> forall y, In y l -> f y = false.
Proof.
  split; [apply find_none|].
  intros H. destruct (find f l) as [x|] eqn:E; [|reflexivity].
  apply find_some in E as [Hin Hx]. rewrite (H x Hin) in Hx. discriminate.
Qed.

Lemma firstSuch_ext {A : Type} (P Q : A -> Prop) (l : list A) (x : A) :
  (forall y, P y <-> Q y) -> firstSuch P l x -> firstSuch Q l x.
Proof.
  intros E (pre & post & -> & Hx & Hpre). exists pre, post.
  repeat split; [now apply E|]. intros y Hy HQ. apply (Hpre y Hy). now apply E.
Qed.

Lemma GET_resolved (w : World) (domain : string) (records : list TxtRecord) :
  domain <> "" ->
  resolveDns w ("_dmarc." ++ cleanDomainOf domain) = Resolved records ->
  GET w (Some domain)
  = handler_resolved (cleanDomainOf domain) records
      (Math_round (sub (clock w 1) (clock w 0)))
  /\ queriesOf w (Some domain) = ["_dmarc." ++ cleanDomainOf domain].
Proof.
  intros Hd Hr. unfold GET, queriesOf. destruct domain as [|c d]; [congruence|].
  cbn [handler run]. rewrite Hr. split; reflexivity.
Qed.

Lemma GET_rejected (w : World) (domain : string) (err : Thrown) :
  domain <> "" ->
  resolveDns w ("_dmarc." ++ cleanDomainOf domain) = Rejected err ->
  GET w (Some domain) = handler_catch (cleanDomainOf domain) err
  /\ queriesOf w (Some domain) = ["_dmarc." ++ cleanDomainOf domain].
Proof.
  intros Hd Hr. unfold GET, queriesOf. destruct domain as [|c d]; [congruence|].
  cbn [handler run]. rewrite Hr. split; reflexivity.
Qed.

Lemma handler_resolved_found (cleanDomain : string) (records : list TxtRecord)
      (queryTime : IntegralNumber) (record : string) :
  find isDmarc (map recordText records) = Some record ->
  handler_resolved cleanDomain records queryTime
  = Response_json
      (JObject [ ("success", JBool true);
                 ("domain", JString cleanDomain);
                 ("record", JString record);
                 ("tags", JArray (map tagToJson (parseDmarcRecord record)));
                 ("policy", JString (policyOf (parseDmarcRecord record)));
                 ("policyDescription",
                  JString (getPolicyDescription (policyOf (parseDmarcRecord record))));
                 ("queryTime", jsonNumber queryTime) ])
      200.
Proof.
  intros H. unfold handler_resolved. rewrite H.
  destruct record as [|c r]; [|reflexivity].
  apply find_some in H as [_ H]. discriminate.
Qed.

Lemma handler_resolved_missing (cleanDomain : string) (records : list TxtRecord)
      (queryTime : IntegralNumber) :
  find isDmarc (map recordText records) = None ->
  handler_resolved cleanDomain records queryTime
  = Response_json (errorBody ("No DMARC record found for " ++ cleanDomain)) 404.
Proof. intros H. unfold handler_resolved. now rewrite H. Qed.

Lemma GET_selected (w : World) (domain record : string) :
  selects w domain record ->
  GET w (Some domain)
  = Response_json
      (JObject [ ("success", JBool true);
                 ("domain", JString (cleanDomainOf domain));
                 ("record", JString record);
                 ("tags", JArray (map tagToJson (parseDmarcRecord record)));
                 ("policy", JString (policyOf (parseDmarcRecord record)));
                 ("policyDescription",
                  JString (getPolicyDescription (policyOf (parseDmarcRecord record))));
                 ("queryTime",
                  jsonNumber (Math_round (sub (clock w 1) (clock w 0)))) ])
      200.
Proof.
  intros (Hd & records & Hr & Hfirst).
  destruct (GET_resolved w domain records Hd Hr) as [-> _].
  apply handler_resolved_found, find_firstSuch.
  revert Hfirst. apply firstSuch_ext. intros y. symmetry. apply isDmarc_qualifies.
Qed.

Lemma join_empty_separator (chunks : list string) :
  JS.join "" chunks = fold_right String.append "" chunks.
Proof.
  induction chunks as [|x [|y rest] IH]; simpl; [reflexivity | | ].
  - now rewrite append_empty_r.
  - simpl in IH. now rewrite IH.
Qed.

(* ================================================================= *)
(** ** Record selection and error outcomes *)

(** C3.  When the resolver answers, the character strings of each record
    are concatenated; the first text that starts with [v=dmarc1], letter
    case aside, is the response's [record], and the response's [tags] are
    the parse of that text.  The 404 response naming the domain is given
    exactly when no text qualifies. *)
Theorem lookup_selection (w : World) (domain : string) (records : list TxtRecord) :
  domain <> "" ->
  resolveDns w ("_dmarc." ++ cleanDomainOf domain) = Resolved records ->
  let texts := map recordText records in
  let response := GET w (Some domain) in
  (forall chunks, recordText (Chunks chunks) = fold_right String.append "" chunks)
  /\ (forall record, firstSuch qualifies texts record ->
        status response = 200%Z
        /\ field "success" (body response) = Some (JBool true)
        /\ field "record" (body response) = Some (JString record)
        /\ field "tags" (body response)
           = Some (JArray (map tagToJson (parseDmarcRecord record))))
  /\ (response
      = Response_json
          (errorBody ("No DMARC record found for " ++ cleanDomainOf domain)) 404
      <-> forall text, In text texts -> ~ qualifies text).
Proof.
  intros Hd Hr texts response.
  destruct (GET_resolved w domain records Hd Hr) as [HGET _].
  split; [intros chunks; apply join_empty_separator|]. split.
  - intros record Hfirst.
    apply (firstSuch_ext _ (fun y => isDmarc y = true)) in Hfirst;
      [|intros y; symmetry; apply isDmarc_qualifies].
    apply find_firstSuch in Hfirst.
    unfold response. rewrite HGET, (handler_resolved_found _ _ _ _ Hfirst).
    repeat split.
  - unfold response. rewrite HGET.
    destruct (find isDmarc texts) as [record|] eqn:E.
    + rewrite (handler_resolved_found _ _ _ _ E). split; [discriminate|].
      intros Hnone. exfalso. apply find_some in E as [Hin Hq].
      apply (Hnone record Hin). now apply isDmarc_qualifies.
    + rewrite (handler_resolved_missing _ _ _ E). split; [|reflexivity].
      intros _ text Hin Hq. apply isDmarc_qualifies in Hq.
      rewrite (proj1 (find_none_iff _ _) E text Hin) in Hq. discriminate.
Qed.

Lemma lookup_selection_witness :
  status (GET sampleWorld (Some "https://example.com/path")) = 200%Z
  /\ field "record" (body (GET sampleWorld (Some "https://example.com/path")))
     = Some (JString "v=DMARC1; p=quarantine; rua=mailto:d@example.com")
  /\ field "tags" (body (GET sampleWorld (Some "https://example.com/path")))
     = Some (JArray (map tagToJson
                       (parseDmarcRecord
                          "v=DMARC1; p=quarantine; rua=mailto:d@example.com"))).
Proof.
  destruct (lookup_selection sampleWorld "https://example.com/path"
              [ Single "v=spf1 -all";
                Chunks ["v=DMARC1; p=quar"; "antine; rua=mailto:d@example.com"] ])
    as (_ & H & _).
  - discriminate.
  - reflexivity.
  - destruct (H "v=DMARC1; p=quarantine; rua=mailto:d@example.com")
      as (H1 & _ & H2 & H3).
    + exists ["v=spf1 -all"], []. split; [reflexivity|]. split.
      * now exists "; p=quarantine; rua=mailto:d@example.com".
      * intros y [<- | []] (rest & Hrest). discriminate.
    + split; [exact H1 | split; [exact H2 | exact H3]].
Defined.

(** C6.  A missing or empty [domain] parameter gives status 400 with the
    error "Domain is required" and no query reaches the resolver.  When
    the resolver fails with a message containing "no record" the status is
    404 and the error names the domain; any other failure gives status 500
    with the failure's message.  A response is either the complete
    success payload or an error payload of [success] and [error] alone. *)
Theorem error_outcomes (w : World) :
  (forall domain, domain = None \/ domain = Some "" ->
     GET w domain = Response_json (errorBody "Domain is required") 400
     /\ queriesOf w domain = [])
  /\ (forall domain err,
        domain <> "" ->
        resolveDns w ("_dmarc." ++ cleanDomainOf domain) = Rejected err ->
        (infix "no record" (errorMessageOf err) ->
         GET w (Some domain)
         = Response_json
             (errorBody ("No DMARC record found for " ++ cleanDomainOf domain
                         ++ ". The domain may not have DMARC configured."))
             404)
        /\ (~ infix "no record" (errorMessageOf err) ->
            GET w (Some domain) = Response_json (errorBody (errorMessageOf err)) 500))
  /\ (forall message, errorMessageOf (ErrorInstance message) = message)
  /\ (forall domain,
        let response := GET w domain in
        (status response = 200%Z
         /\ field "success" (body response) = Some (JBool true)
         /\ keys (body response)
            = ["success"; "domain"; "record"; "tags"; "policy";
               "policyDescription"; "queryTime"])
        \/ (In (status response) [400; 404; 500]%Z
            /\ exists message, body response = errorBody message)).
Proof.
  split; [|split; [|split]].
  - intros domain [-> | ->]; split; reflexivity.
  - intros domain err Hd Hr.
    destruct (GET_rejected w domain err Hd Hr) as [-> _].
    unfold handler_catch. split; intros H.
    + apply includes_spec in H. now rewrite H.
    + destruct (JS.includes (errorMessageOf err) "no record") eqn:E; [|reflexivity].
      exfalso. apply H. now apply includes_spec.
  - reflexivity.
  - intros [[|c d]|]; simpl; try (right; split; [now left | now eexists]).
    set (domain := String c d).
    assert (Hd : domain <> "") by discriminate.
    destruct (resolveDns w ("_dmarc." ++ cleanDomainOf domain)) as [records|err] eqn:Hr.
    + destruct (GET_resolved w domain records Hd Hr) as [-> _].
      destruct (find isDmarc (map recordText records)) as [record|] eqn:E.
      * rewrite (handler_resolved_found _ _ _ _ E). left. repeat split.
      * rewrite (handler_resolved_missing _ _ _ E). right.
        split; [right; now left | now eexists].
    + destruct (GET_rejected w domain err Hd Hr) as [-> _].
      unfold handler_catch. right.
      destruct (JS.includes (errorMessageOf err) "no record").
      * split; [right; now left | now eexists].
      * split; [right; right; now left | now eexists].
Qed.

Lemma error_outcomes_witness :
  (GET sampleWorld None = Response_json (errorBody "Domain is required") 400
   /\ queriesOf sampleWorld None = [])
  /\ GET sampleWorld (Some "absent.example")
     = Response_json
         (errorBody "No DMARC record found for absent.example. The domain may not have DMARC configured.")
         404
  /\ GET sampleWorld (Some "down.example")
     = Response_json (errorBody "proto error: io error: connection refused") 500.
Proof.
  destruct (error_outcomes sampleWorld) as (H400 & Hfail & _ & _).
  split; [apply H400; now left|]. split.
  - refine (proj1 (Hfail "absent.example" _ _ eq_refl) _); [discriminate|].
    apply includes_spec. reflexivity.
  - refine (proj2 (Hfail "down.example" _ _ eq_refl) _); [discriminate|].
    intros H. apply includes_spec in H. discriminate.
Defined.

(* ================================================================= *)
(** ** Policy *)

Lemma isPolicyTag_eqb (t : DmarcTag) :
  String.eqb (tag t) "p" = true <-> isPolicyTag t.
Proof. apply String.eqb_eq. Qed.

Lemma truthy_false (s : string) : JS.truthy s = false <-> s = "".
Proof. destruct s; simpl; split; congruence. Qed.

Lemma policyOf_first (tags : list DmarcTag) (t : DmarcTag) :
  firstSuch isPolicyTag tags t ->
  (value t = "" -> policyOf tags = "none")
  /\ (value t <> "" -> policyOf tags = value t).
Proof.
  intros H.
  apply (firstSuch_ext _ (fun y => String.eqb (tag y) "p" = true)) in H;
    [|intros y; symmetry; apply isPolicyTag_eqb].
  apply find_firstSuch in H. unfold policyOf. rewrite H.
  destruct (value t); simpl; split; congruence.
Qed.

Lemma policyOf_absent (tags : list DmarcTag) :
  (forall t, In t tags -> ~ isPolicyTag t) -> policyOf tags = "none".
Proof.
  intros H. unfold policyOf.
  destruct (find _ tags) as [t|] eqn:E; [|reflexivity].
  apply find_some in E as [Hin Hp]. exfalso.
  apply (H t Hin). now apply isPolicyTag_eqb.
Qed.

Lemma selects_single (domain record : string) :
  domain <> "" -> qualifies record ->
  selects (worldWith [Single record]) domain record.
Proof.
  intros Hd Hq. split; [assumption|]. exists [Single record].
  split; [reflexivity|]. exists [], []. repeat split; [assumption|].
  intros y [].
Qed.

Lemma GET_selected_policy (w : World) (domain record : string) :
  selects w domain record ->
  field "policy" (body (GET w (Some domain)))
  = Some (JString (policyOf (parseDmarcRecord record)))
  /\ field "policyDescription" (body (GET w (Some domain)))
     = Some (JString (getPolicyDescription (policyOf (parseDmarcRecord record)))).
Proof. intros H. rewrite (GET_selected _ _ _ H). split; reflexivity. Qed.

(** C4, as the code has it.  For a selected record, the response's
    [policy] is the value of the first [p] tag of the parsed sequence when
    that value is not empty; it is "none" when the sequence has no [p] tag,
    and [policyDescription] is then the monitoring-only sentence. *)
Theorem policy_default (w : World) (domain record : string) :
  selects w domain record ->
  let tags := parseDmarcRecord record in
  let response := GET w (Some domain) in
  (forall t, firstSuch isPolicyTag tags t -> value t <> "" ->
     field "policy" (body response) = Some (JString (value t)))
  /\ ((forall t, In t tags -> ~ isPolicyTag t) ->
      field "policy" (body response) = Some (JString "none")
      /\ field "policyDescription" (body response) = Some (JString monitoringOnly)).
Proof.
  intros Hsel tags response. subst tags response.
  destruct (GET_selected_policy _ _ _ Hsel) as [-> ->]. split.
  - intros t Hfirst Hne. now rewrite (proj2 (policyOf_first _ _ Hfirst) Hne).
  - intros Habsent. rewrite (policyOf_absent _ Habsent). split; reflexivity.
Qed.

Lemma policy_default_witness :
  field "policy"
    (body (GET (worldWith [Single "v=DMARC1; rua=mailto:d@example.com"])
               (Some "example.com")))
  = Some (JString "none")
  /\ field "policyDescription"
       (body (GET (worldWith [Single "v=DMARC1; rua=mailto:d@example.com"])
                  (Some "example.com")))
     = Some (JString monitoringOnly).
Proof.
  refine (proj2 (policy_default
                   (worldWith [Single "v=DMARC1; rua=mailto:d@example.com"])
                   "example.com" "v=DMARC1; rua=mailto:d@example.com" _) _).
  - apply selects_single; [discriminate | apply isDmarc_qualifies; reflexivity].
  - intros t [<- | [<- | []]]; discriminate.
Defined.

(** C4 as stated fails: the record [v=DMARC1; p=] has a [p] tag, the only
    one, whose value is the empty string, and the response's policy is
    "none". *)
Lemma policy_is_p_value_counterexample :
  ~ (forall (w : World) (domain record : string) (t : DmarcTag),
       selects w domain record ->
       In t (parseDmarcRecord record) -> tag t = "p" ->
       field "policy" (body (GET w (Some domain))) = Some (JString (value t))).
Proof.
  intros H.
  specialize (H (worldWith [Single "v=DMARC1; p="]) "example.com" "v=DMARC1; p="
                (parsePart "p=")).
  assert (E : Some (JString "none") = Some (JString "")).
  { apply H.
    - apply selects_single; [discriminate | apply isDmarc_qualifies; reflexivity].
    - right. left. reflexivity.
    - reflexivity. }
  discriminate E.
Qed.

(** C9.  When the first [p] tag has the empty value, as the parts [p] and
    [p=] give, the policy is "none", as it is when there is no [p] tag;
    when the first [p] tag has a value, that value is the policy whatever
    [p] tags follow. *)
Theorem policy_first_tag (w : World) (domain record : string) :
  selects w domain record ->
  let tags := parseDmarcRecord record in
  let response := GET w (Some domain) in
  (forall t, firstSuch isPolicyTag tags t -> value t = "" ->
     field "policy" (body response) = Some (JString "none"))
  /\ ((forall t, In t tags -> ~ isPolicyTag t) ->
      field "policy" (body response) = Some (JString "none"))
  /\ (forall t, firstSuch isPolicyTag tags t -> value t <> "" ->
        field "policy" (body response) = Some (JString (value t)))
  /\ (tag (parsePart "p") = "p" /\ value (parsePart "p") = "")
  /\ (tag (parsePart "p=") = "p" /\ value (parsePart "p=") = "").
Proof.
  intros Hsel tags response. subst tags response.
  destruct (GET_selected_policy _ _ _ Hsel) as [-> _].
  repeat split.
  - intros t Hfirst He. now rewrite (proj1 (policyOf_first _ _ Hfirst) He).
  - intros Habsent. now rewrite (policyOf_absent _ Habsent).
  - intros t Hfirst Hne. now rewrite (proj2 (policyOf_first _ _ Hfirst) Hne).
Qed.

Lemma policy_first_tag_witness :
  field "policy"
    (body (GET (worldWith [Single "v=DMARC1; p=; p=reject"]) (Some "example.com")))
  = Some (JString "none")
  /\ field "policy"
       (body (GET (worldWith [Single "v=DMARC1; p=quarantine; p=reject"])
                  (Some "example.com")))
     = Some (JString "quarantine").
Proof.
  split.
  - refine (proj1 (policy_first_tag (worldWith [Single "v=DMARC1; p=; p=reject"])
                     "example.com" "v=DMARC1; p=; p=reject" _) (parsePart "p=") _ _).
    + apply selects_single; [discriminate | apply isDmarc_qualifies; reflexivity].
    + exists [parsePart "v=DMARC1"], [parsePart "p=reject"].
      split; [reflexivity|]. split; [reflexivity|].
      intros y [<- | []]. discriminate.
    + reflexivity.
  - refine (proj1 (proj2 (proj2
              (policy_first_tag (worldWith [Single "v=DMARC1; p=quarantine; p=reject"])
                 "example.com" "v=DMARC1; p=quarantine; p=reject" _)))
              (parsePart "p=quarantine") _ _).
    + apply selects_single; [discriminate | apply isDmarc_qualifies; reflexivity].
    + exists [parsePart "v=DMARC1"], [parsePart "p=reject"].
      split; [reflexivity|]. split; [reflexivity|].
      intros y [<- | []]. discriminate.
    + discriminate.
Defined.

(* ================================================================= *)
(** ** Values are kept as written *)

Lemma trimStart_suffix (s : string) : exists pre, s = pre ++ JS.trimStart s.
Proof.
  induction s as [|c s (pre & IH)]; simpl; [now exists ""|].
  destruct (JS.isWhiteSpace c); [|now exists ""].
  exists (String c pre). simpl. now rewrite <- IH.
Qed.

Lemma trimEnd_prefix (s : string) : exists post, s = JS.trimEnd s ++ post.
Proof.
  induction s as [|c s (post & IH)]; simpl; [now exists ""|].
  destruct (JS.trimEnd s) as [|d t].
  - simpl in IH. subst post.
    destruct (JS.isWhiteSpace c); [now exists (String c s) | now exists s].
  - exists post. simpl. f_equal. exact IH.
Qed.

Lemma trim_infix (s : string) : infix (JS.trim s) s.
Proof.
  unfold JS.trim. destruct (trimStart_suffix s) as (pre & Hpre).
  destruct (trimEnd_prefix (JS.trimStart s)) as (post & Hpost).
  exists pre, post. now rewrite <- Hpost.
Qed.

Lemma split_head_prefix (sep : ascii) (s : string) :
  exists post, s = fst (JS.split sep s) ++ post.
Proof.
  induction s as [|c s (post & IH)]; simpl; [now exists ""|].
  destruct (JS.split sep s) as [h t]. simpl in IH.
  destruct (Ascii.eqb c sep); simpl; [now exists (String c s)|].
  exists post. now rewrite <- IH.
Qed.

Lemma split_pieces_infix (sep : ascii) (s piece : string) :
  In piece (JS.splitArray sep s) -> infix piece s.
Proof.
  unfold JS.splitArray. revert piece.
  induction s as [|c s IH]; simpl; intros piece.
  - intros [<- | []]. apply infix_refl.
  - pose proof (split_head_prefix sep s) as (post & Hhead).
    destruct (JS.split sep s) as [h t]. simpl in Hhead.
    destruct (Ascii.eqb c sep).
    + intros [<- | Hin]; [apply infix_empty | apply infix_cons, IH, Hin].
    + intros [<- | Hin].
      * exists "", post. simpl. now rewrite <- Hhead.
      * apply infix_cons, IH. now right.
Qed.

Lemma split_rest_infix (sep : ascii) (s : string) :
  infix (JS.join (String sep "") (snd (JS.split sep s))) s.
Proof.
  pose proof (join_split sep s) as H. unfold JS.splitArray in H.
  destruct (JS.split sep s) as [h [|y rest]]; simpl snd.
  - apply infix_empty.
  - rewrite join_cons in H. exists (h ++ String sep ""), "".
    rewrite append_empty_r, append_assoc. now symmetry.
Qed.

Lemma parsePart_value_infix (part : string) : infix (value (parsePart part)) part.
Proof.
  unfold parsePart. pose proof (split_rest_infix "=" part) as H.
  destruct (JS.split "=" part) as [h t]. simpl in *.
  eapply infix_trans; [apply trim_infix | exact H].
Qed.

Lemma parts_infix (record part : string) :
  In part (parts record) -> infix part record.
Proof.
  unfold parts. intros H. apply filter_In in H as [H _].
  apply in_map_iff in H as (piece & <- & Hin).
  eapply infix_trans; [apply trim_infix | now apply (split_pieces_infix ";")].
Qed.

Lemma parseDmarcRecord_In (record : string) (t : DmarcTag) :
  In t (parseDmarcRecord record) <->
  exists part, In part (parts record) /\ t = parsePart part.
Proof.
  rewrite parseDmarcRecord_map, in_map_iff. split.
  - intros (part & <- & H). now exists part.
  - intros (part & H & ->). now exists part.
Qed.

(** C10.  A tag's value is a run of code units of the record exactly as
    they stand there: parsing changes no letter of it.  The policy summary
    compares its argument with [reject], [quarantine] and [none] as
    written: each of the three sentences is returned for exactly its own
    keyword, and every other string, a keyword in another case included,
    gets the summary of an unknown policy.  So the selected record
    [v=DMARC1; p=REJECT] has the policy [REJECT] and the summary of an
    unknown policy, although the selection accepted [v=DMARC1] and the
    tag name is lower-cased. *)
Theorem policy_case_sensitive :
  (forall (w : World) (domain : string),
     selects w domain "v=DMARC1; p=REJECT" ->
     field "policy" (body (GET w (Some domain))) = Some (JString "REJECT")
     /\ field "policyDescription" (body (GET w (Some domain)))
        = Some (JString "Unknown policy type."))
  /\ (forall (record : string) (t : DmarcTag),
        In t (parseDmarcRecord record) -> infix (value t) record)
  /\ (forall policy : string,
        getPolicyDescription policy = getPolicyDescription "reject" ->
        policy = "reject")
  /\ (forall policy : string,
        getPolicyDescription policy = getPolicyDescription "quarantine" ->
        policy = "quarantine")
  /\ (forall policy : string,
        getPolicyDescription policy = getPolicyDescription "none" ->
        policy = "none")
  /\ (forall policy : string,
        policy <> "reject" -> policy <> "quarantine" -> policy <> "none" ->
        getPolicyDescription policy = "Unknown policy type.")
  /\ getPolicyDescription "Reject" = "Unknown policy type."
  /\ getPolicyDescription "QUARANTINE" = "Unknown policy type."
  /\ getPolicyDescription "None" = "Unknown policy type."
  /\ qualifies "v=DMARC1; p=REJECT"
  /\ tag (parsePart "P=REJECT") = "p"
  /\ value (parsePart "P=REJECT") = "REJECT".
Proof.
  repeat match goal with |- _ /\ _ => split end; try reflexivity.
  - intros w domain Hsel.
    destruct (GET_selected_policy _ _ _ Hsel) as [-> ->]. split; reflexivity.
  - intros record t Ht. apply parseDmarcRecord_In in Ht as (part & Hin & ->).
    eapply infix_trans; [apply parsePart_value_infix | now apply parts_infix].
  - intros policy. unfold getPolicyDescription.
    destruct (String.eqb_spec policy "reject") as [-> | _]; [reflexivity|].
    destruct (String.eqb policy "quarantine"); [discriminate|].
    destruct (String.eqb policy "none"); discriminate.
  - intros policy. unfold getPolicyDescription.
    destruct (String.eqb policy "reject"); [discriminate|].
    destruct (String.eqb_spec policy "quarantine") as [-> | _]; [reflexivity|].
    destruct (String.eqb policy "none"); discriminate.
  - intros policy. unfold getPolicyDescription.
    destruct (String.eqb policy "reject"); [discriminate|].
    destruct (String.eqb policy "quarantine"); [discriminate|].
    destruct (String.eqb_spec policy "none") as [-> | _]; [reflexivity|].
    discriminate.
  - intros policy Hr Hq Hn. unfold getPolicyDescription.
    destruct (String.eqb_spec policy "reject") as [E | _]; [now elim Hr|].
    destruct (String.eqb_spec policy "quarantine") as [E | _]; [now elim Hq|].
    destruct (String.eqb_spec policy "none") as [E | _]; [now elim Hn|].
    reflexivity.
  - now exists "; p=reject".
Qed.

Lemma policy_case_sensitive_witness :
  field "policy"
    (body (GET (worldWith [Single "v=DMARC1; p=REJECT"]) (Some "example.com")))
  = Some (JString "REJECT")
  /\ field "policyDescription"
       (body (GET (worldWith [Single "v=DMARC1; p=REJECT"]) (Some "example.com")))
     = Some (JString "Unknown policy type.").
Proof.
  refine (proj1 policy_case_sensitive (worldWith [Single "v=DMARC1; p=REJECT"])
            "example.com" _).
  apply selects_single; [discriminate | apply isDmarc_qualifies; reflexivity].
Defined.

(* ================================================================= *)
(** ** Alignment tags *)

(** C8.  The description of an [adkim] or [aspf] tag is the strict
    sentence when the value is [s] and the relaxed sentence for every
    other value, [r], [x] and the empty value included. *)
Theorem alignment_description (record : string) (t : DmarcTag) :
  In t (parseDmarcRecord record) ->
  (tag t = "adkim" ->
   (value t = "s" ->
    description t = VString "DKIM alignment: Strict (exact domain match required)")
   /\ (value t <> "s" ->
       description t
       = VString "DKIM alignment: Relaxed (organizational domain match allowed)"))
  /\ (tag t = "aspf" ->
      (value t = "s" ->
       description t = VString "SPF alignment: Strict (exact domain match required)")
      /\ (value t <> "s" ->
          description t
          = VString "SPF alignment: Relaxed (organizational domain match allowed)")).
Proof.
  intros Ht. apply parseDmarcRecord_In in Ht as (part & _ & ->).
  unfold parsePart. destruct (JS.split "=" part) as [h rest]. simpl.
  split; intros ->; simpl;
    unfold tagDescriptions_adkim, tagDescriptions_aspf;
    (split; [intros ->; reflexivity | intros Hne]);
    now apply String.eqb_neq in Hne as ->.
Qed.

Lemma alignment_description_witness :
  description (parsePart "adkim=s")
  = VString "DKIM alignment: Strict (exact domain match required)"
  /\ description (parsePart "adkim=x")
     = VString "DKIM alignment: Relaxed (organizational domain match allowed)"
  /\ description (parsePart "aspf")
     = VString "SPF alignment: Relaxed (organizational domain match allowed)".
Proof.
  split; [|split].
  - refine (proj1 (proj1 (alignment_description "v=DMARC1; adkim=s; aspf=r"
                            (parsePart "adkim=s") _) eq_refl) eq_refl).
    right. left. reflexivity.
  - refine (proj2 (proj1 (alignment_description "v=DMARC1; adkim=x"
                            (parsePart "adkim=x") _) eq_refl) _).
    + right. left. reflexivity.
    + discriminate.
  - refine (proj2 (proj2 (alignment_description "v=DMARC1; aspf"
                            (parsePart "aspf") _) eq_refl) _).
    + right. left. reflexivity.
    + discriminate.
Defined.

(* ================================================================= *)
(** ** Domain normalization *)

Lemma afterPrefix_app (p q s : string) :
  JS.afterPrefix (p ++ q) s
  = match JS.afterPrefix p s with
    | Some rest => JS.afterPrefix q rest
    | None => None
    end.
Proof.
  revert s. induction p as [|a p IH]; intros s; simpl.
  - now destruct q.
  - destruct s as [|b s]; [reflexivity|].
    destruct (Ascii.eqb a b); [apply IH | reflexivity].
Qed.

Lemma afterPrefix_dotStar (p s rest : string) :
  JS.afterPrefix p s = Some rest ->
  JS.dotStarToEnd s = true -> JS.dotStarToEnd rest = true.
Proof.
  revert s. induction p as [|a p IH]; intros s; simpl.
  - destruct s; intros [= <-]; trivial.
  - destruct s as [|b s]; [discriminate|].
    destruct (Ascii.eqb a b); [|discriminate].
    intros H Hs. simpl in Hs. apply andb_true_iff in Hs as [_ Hs]. eauto.
Qed.

Lemma replace_scheme_spec (s : string) :
  JS.replace_scheme s
  = match JS.afterPrefix "http://" s with
    | Some rest => rest
    | None => stripLeading "https://" s
    end.
Proof.
  unfold JS.replace_scheme, stripLeading.
  change "http://" with ("http" ++ "://").
  change "https://" with ("http" ++ "s" ++ "://").
  rewrite !afterPrefix_app.
  destruct (JS.afterPrefix "http" s) as [r|]; [|reflexivity].
  rewrite afterPrefix_app.
  destruct r as [|c r]; [reflexivity|]. cbv zeta.
  change (JS.afterPrefix "s" (String c r))
    with (if Ascii.eqb "s" c then Some r else None).
  change (JS.afterPrefix "://" (String c r))
    with (if Ascii.eqb ":" c then JS.afterPrefix "//" r else None).
  destruct (Ascii.eqb_spec "s" c) as [<- | _]; [reflexivity|].
  change (JS.afterPrefix "://" (String c r))
    with (if Ascii.eqb ":" c then JS.afterPrefix "//" r else None).
  destruct (Ascii.eqb ":" c); reflexivity.
Qed.

Lemma replace_path_spec (s : string) :
  JS.dotStarToEnd s = true -> JS.replace_path s = beforeFirst "/" s.
Proof.
  induction s as [|c s IH]; simpl; [reflexivity|].
  intros H. apply andb_true_iff in H as [_ H]. rewrite H, (IH H), andb_true_r.
  reflexivity.
Qed.

(** On a domain with no line terminator the handler's three replacements
    are the normalization of the specification. *)
Lemma cleanDomainOf_spec (domain : string) :
  JS.dotStarToEnd domain = true -> cleanDomainOf domain = normalizeSpec domain.
Proof.
  intros H. unfold cleanDomainOf, normalizeSpec.
  rewrite replace_scheme_spec.
  change (JS.replace_dmarc_prefix domain) with (stripLeading "_dmarc." domain).
  apply replace_path_spec.
  assert (H1 : JS.dotStarToEnd (stripLeading "_dmarc." domain) = true).
  { unfold stripLeading.
    destruct (JS.afterPrefix "_dmarc." domain) eqn:E; [|assumption].
    eapply afterPrefix_dotStar; eassumption. }
  destruct (JS.afterPrefix "http://" _) eqn:E1.
  - eapply afterPrefix_dotStar; eassumption.
  - unfold stripLeading at 1.
    destruct (JS.afterPrefix "https://" _) eqn:E2; [|assumption].
    eapply afterPrefix_dotStar; eassumption.
Qed.

Lemma cleanDomainOf_examples :
  cleanDomainOf "_dmarc.example.com" = "example.com"
  /\ cleanDomainOf "https://example.com/path" = "example.com"
  /\ cleanDomainOf "http://example.com" = "example.com".
Proof. repeat split. Qed.

(** C5.  The domain [a/b], a line feed, [c] has its first slash after the
    [a], and the normalization of the specification cuts it there; the
    handler leaves the domain whole, because the expression [/\/.*$/]
    matches no slash that a line terminator follows. *)
Theorem cleanDomain_line_terminator :
  let domain := "a/b" ++ LF ++ "c" in
  normalizeSpec domain = "a"
  /\ cleanDomainOf domain = domain
  /\ cleanDomainOf domain <> normalizeSpec domain.
Proof. repeat split. discriminate. Qed.

(* ================================================================= *)
(** ** Inherited properties *)

Lemma toLowerCaseChar_not_upper (c : ascii) :
  let n := N_of_ascii (JS.toLowerCaseChar c) in
  ((65 <=? n) && (n <=? 90))%N = false.
Proof. destruct c as [[] [] [] [] [] [] [] []]; reflexivity. Qed.

(** Of the names an object literal inherits, [constructor] is the only one
    a lower-cased tag name can be. *)
Lemma inherited_lowercase (s : string) :
  assoc (JS.toLowerCase s) ObjectPrototype <> None ->
  JS.toLowerCase s = "constructor".
Proof.
  unfold ObjectPrototype. cbn [assoc].
  destruct (String.eqb_spec (JS.toLowerCase s) "constructor") as [E|_]; [trivial|].
  intros H. exfalso. apply H. clear H.
  repeat match goal with
  | |- context [String.eqb (JS.toLowerCase s) ?k] =>
      destruct (String.eqb_spec (JS.toLowerCase s) k) as [E|_]; [exfalso|]
  end; try reflexivity.
  all: repeat (destruct s as [|? s]; [discriminate E|];
               cbn [JS.toLowerCase] in E;
               match type of E with
               | String (JS.toLowerCaseChar ?c) _ = String ?k _ =>
                   first
                     [ let Hc := fresh in
                       pose proof (toLowerCaseChar_not_upper c) as Hc;
                       injection E as E0 E; rewrite E0 in Hc; discriminate Hc
                     | injection E as _ E ]
               end).
Qed.

(* ================================================================= *)
(** ** binary64: an integer divided by 3600 and rounded *)

Section Binary64.

Local Open Scope Z_scope.


















(** *** [parseInt] on decimal numerals *)









Lemma decimal_negative (p : positive) : decimal (Zneg p) = "-" ++ decimal (Zpos p).
Proof. reflexivity. Qed.




End Binary64.

(* ================================================================= *)
(** ** The report interval *)



(* ================================================================= *)
(** ** Further properties of the parser, the handler and the island *)

(** *** Code units *)

Lemma toLowerCaseChar_idem (c : ascii) :
  JS.toLowerCaseChar (JS.toLowerCaseChar c) = JS.toLowerCaseChar c.
Proof. destruct c as [[] [] [] [] [] [] [] []]; reflexivity. Qed.

Lemma isWhiteSpace_lower (c : ascii) :
  JS.isWhiteSpace (JS.toLowerCaseChar c) = JS.isWhiteSpace c.
Proof. destruct c as [[] [] [] [] [] [] [] []]; reflexivity. Qed.

Lemma eqb_lower_separator (c : ascii) :
  Ascii.eqb (JS.toLowerCaseChar c) "=" = Ascii.eqb c "="
  /\ Ascii.eqb (JS.toLowerCaseChar c) ";" = Ascii.eqb c ";".
Proof. destruct c as [[] [] [] [] [] [] [] []]; split; reflexivity. Qed.

(** *** Trimming and lower-casing *)

Lemma toLowerCase_idem (s : string) : JS.toLowerCase (JS.toLowerCase s) = JS.toLowerCase s.
Proof. induction s as [|c s IH]; simpl; [reflexivity|]. now rewrite toLowerCaseChar_idem, IH. Qed.

Lemma trimEnd_solid (c : ascii) (s : string) :
  JS.isWhiteSpace c = false -> JS.trimEnd (String c s) = String c (JS.trimEnd s).
Proof. intros H. cbn [JS.trimEnd]. rewrite H. now destruct (JS.trimEnd s). Qed.

Lemma trimStart_lower (s : string) :
  JS.trimStart (JS.toLowerCase s) = JS.toLowerCase (JS.trimStart s).
Proof.
  induction s as [|c s IH]; [reflexivity|]. cbn [JS.toLowerCase JS.trimStart].
  rewrite isWhiteSpace_lower. now destruct (JS.isWhiteSpace c).
Qed.

Lemma toLowerCase_empty (s : string) : JS.toLowerCase s = "" -> s = "".
Proof. destruct s; [reflexivity | discriminate]. Qed.

Lemma trimEnd_lower (s : string) :
  JS.trimEnd (JS.toLowerCase s) = JS.toLowerCase (JS.trimEnd s).
Proof.
  induction s as [|c s IH]; [reflexivity|]. cbn [JS.toLowerCase JS.trimEnd].
  rewrite IH, isWhiteSpace_lower.
  destruct (JS.trimEnd s); cbn [JS.toLowerCase]; [now destruct (JS.isWhiteSpace c) | reflexivity].
Qed.

Lemma trim_lower (s : string) : JS.trim (JS.toLowerCase s) = JS.toLowerCase (JS.trim s).
Proof. unfold JS.trim. now rewrite trimStart_lower, trimEnd_lower. Qed.

Lemma trimEnd_idem (s : string) : JS.trimEnd (JS.trimEnd s) = JS.trimEnd s.
Proof.
  induction s as [|c s IH]; [reflexivity|]. cbn [JS.trimEnd].
  destruct (JS.trimEnd s) as [|d t] eqn:E.
  - destruct (JS.isWhiteSpace c) eqn:Hc; [reflexivity|]. cbn [JS.trimEnd]. now rewrite Hc.
  - cbn [JS.trimEnd]. cbn [JS.trimEnd] in IH. rewrite IH. reflexivity.
Qed.

Lemma trimStart_noLeading (s : string) : noLeadingSpace (JS.trimStart s).
Proof.
  induction s as [|c s IH]; [exact I|]. cbn [JS.trimStart].
  destruct (JS.isWhiteSpace c) eqn:E; [exact IH | exact E].
Qed.

Lemma trimStart_fixed (s : string) : noLeadingSpace s -> JS.trimStart s = s.
Proof. destruct s as [|c s]; [reflexivity|]. cbn. now intros ->. Qed.

Lemma trimEnd_noLeading (s : string) : noLeadingSpace s -> noLeadingSpace (JS.trimEnd s).
Proof.
  destruct s as [|c s]; [trivial|]. cbn [noLeadingSpace]. intros H.
  rewrite (trimEnd_solid c s H). exact H.
Qed.

Lemma trim_idem (s : string) : JS.trim (JS.trim s) = JS.trim s.
Proof.
  unfold JS.trim.
  rewrite (trimStart_fixed (JS.trimEnd (JS.trimStart s)))
    by apply trimEnd_noLeading, trimStart_noLeading.
  apply trimEnd_idem.
Qed.

(** *** Separators *)

Lemma occurs_app (c : ascii) (a b : string) :
  occurs c (a ++ b) = occurs c a || occurs c b.
Proof. induction a as [|x a IH]; simpl; [reflexivity|]. now rewrite IH, orb_assoc. Qed.

Lemma occurs_infix (c : ascii) (u s : string) :
  infix u s -> occurs c s = false -> occurs c u = false.
Proof.
  intros (pre & post & ->). rewrite !occurs_app.
  intros H. apply orb_false_iff in H as [_ H]. now apply orb_false_iff in H as [H _].
Qed.

Lemma occurs_lower_separator (s : string) :
  occurs "=" (JS.toLowerCase s) = occurs "=" s
  /\ occurs ";" (JS.toLowerCase s) = occurs ";" s.
Proof.
  induction s as [|c s [IH1 IH2]]; [split; reflexivity|]. cbn [JS.toLowerCase occurs].
  destruct (eqb_lower_separator c) as [-> ->]. now rewrite IH1, IH2.
Qed.

Lemma split_head_free (sep : ascii) (s : string) :
  occurs sep (fst (JS.split sep s)) = false.
Proof.
  induction s as [|c s IH]; [reflexivity|]. cbn [JS.split].
  destruct (JS.split sep s) as [h t]. cbn [fst] in IH.
  destruct (Ascii.eqb c sep) eqn:E; cbn [fst occurs]; [reflexivity|]. now rewrite E, IH.
Qed.

Lemma split_pieces_free (sep : ascii) (s : string) :
  Forall (fun piece => occurs sep piece = false) (JS.splitArray sep s).
Proof.
  unfold JS.splitArray. induction s as [|c s IH]; cbn [JS.split].
  - repeat constructor.
  - destruct (JS.split sep s) as [h t]. inversion IH as [|? ? Hh Ht]; subst.
    destruct (Ascii.eqb c sep) eqn:E.
    + constructor; [reflexivity | now constructor].
    + constructor; [|assumption]. cbn [occurs]. now rewrite E, Hh.
Qed.

Lemma parts_free (record part : string) :
  In part (parts record) -> occurs ";" part = false.
Proof.
  unfold parts. intros H. apply filter_In in H as [H _].
  apply in_map_iff in H as (piece & <- & Hin).
  apply (occurs_infix _ _ piece (trim_infix piece)).
  pose proof (split_pieces_free ";" record) as Hall.
  rewrite Forall_forall in Hall. now apply Hall.
Qed.

Lemma parsePart_tag (part : string) :
  tag (parsePart part) = JS.toLowerCase (JS.trim (fst (JS.split "=" part))).
Proof. unfold parsePart. now destruct (JS.split "=" part). Qed.

Lemma parsePart_value (part : string) :
  value (parsePart part) = JS.trim (JS.join "=" (snd (JS.split "=" part))).
Proof. unfold parsePart. now destruct (JS.split "=" part). Qed.

Lemma parsePart_tag_free (part : string) : occurs "=" (tag (parsePart part)) = false.
Proof.
  rewrite parsePart_tag. rewrite (proj1 (occurs_lower_separator _)).
  apply (occurs_infix _ _ _ (trim_infix _)), split_head_free.
Qed.

(** Every tag of a parsed record is in normal form: its name is lower-case
    and trimmed, and its value is trimmed. *)
Theorem tags_normal_form (record : string) (t : DmarcTag) :
  In t (parseDmarcRecord record) ->
  JS.toLowerCase (tag t) = tag t
  /\ JS.trim (tag t) = tag t
  /\ JS.trim (value t) = value t.
Proof.
  intros Ht. apply parseDmarcRecord_In in Ht as (part & _ & ->).
  rewrite parsePart_tag, parsePart_value. repeat split.
  - apply toLowerCase_idem.
  - now rewrite trim_lower, trim_idem.
  - apply trim_idem.
Qed.

(** No tag name of a parsed record contains an equals sign, and neither a
    name nor a value contains a semicolon. *)
Theorem tags_free_of_separators (record : string) (t : DmarcTag) :
  In t (parseDmarcRecord record) ->
  occurs "=" (tag t) = false
  /\ occurs ";" (tag t) = false
  /\ occurs ";" (value t) = false.
Proof.
  intros Ht. apply parseDmarcRecord_In in Ht as (part & Hin & ->).
  pose proof (parts_free record part Hin) as Hfree.
  split; [apply parsePart_tag_free|]. split.
  - rewrite parsePart_tag, (proj2 (occurs_lower_separator _)).
    apply (occurs_infix _ _ _ (trim_infix _)).
    destruct (split_head_prefix "=" part) as (post & Hpost).
    apply (occurs_infix _ _ part); [|assumption].
    exists "", post. exact Hpost.
  - apply (occurs_infix _ _ part); [apply parsePart_value_infix | assumption].
Qed.

(** *** Concatenating records *)

Lemma splitArray_app (sep : ascii) (a b : string) :
  JS.splitArray sep (a ++ String sep b)
  = (JS.splitArray sep a ++ JS.splitArray sep b)%list.
Proof.
  unfold JS.splitArray. induction a as [|c a IH]; cbn [String.append JS.split].
  - destruct (JS.split sep b) as [h t]. now rewrite Ascii.eqb_refl.
  - destruct (JS.split sep (a ++ String sep b)) as [h t].
    destruct (JS.split sep a) as [ha ta]. destruct (JS.split sep b) as [hb tb].
    cbn [app] in IH. injection IH as -> ->.
    now destruct (Ascii.eqb c sep).
Qed.

(** Parsing two records joined by a semicolon gives the tags of the first
    followed by the tags of the second: a repeated name is neither merged
    nor dropped. *)
Theorem parseDmarcRecord_app (a b : string) :
  parseDmarcRecord (a ++ ";" ++ b)
  = (parseDmarcRecord a ++ parseDmarcRecord b)%list.
Proof.
  rewrite !parseDmarcRecord_map. unfold parts.
  change (";" ++ b) with (String ";" b).
  now rewrite splitArray_app, map_app, filter_app, map_app.
Qed.

(** *** Writing tags back *)

Lemma trimEnd_app_solid (a b : string) (c : ascii) :
  JS.isWhiteSpace c = false ->
  JS.trimEnd (a ++ String c b) = a ++ String c (JS.trimEnd b).
Proof.
  intros Hc. induction a as [|x a IH]; cbn [String.append].
  - now apply trimEnd_solid.
  - cbn [JS.trimEnd]. rewrite IH. now destruct a.
Qed.

Lemma trim_fixed_noLeading (s : string) : JS.trim s = s -> noLeadingSpace s.
Proof.
  intros <-. unfold JS.trim. apply trimEnd_noLeading, trimStart_noLeading.
Qed.

Lemma trim_fixed_trimEnd (s : string) : JS.trim s = s -> JS.trimEnd s = s.
Proof. intros H. rewrite <- H at 1. unfold JS.trim. rewrite trimEnd_idem. exact H. Qed.

Lemma trim_fixed_pair (a b : string) :
  JS.trim a = a -> JS.trim b = b -> JS.trim (a ++ "=" ++ b) = a ++ "=" ++ b.
Proof.
  intros Ha Hb. unfold JS.trim. cbn [String.append].
  rewrite trimStart_fixed.
  - rewrite trimEnd_app_solid by reflexivity. now rewrite (trim_fixed_trimEnd b Hb).
  - pose proof (trim_fixed_noLeading a Ha) as H. destruct a; [reflexivity | exact H].
Qed.

Lemma parsePart_ext (p q : string) :
  tag (parsePart p) = tag (parsePart q) ->
  value (parsePart p) = value (parsePart q) ->
  parsePart p = parsePart q.
Proof.
  unfold parsePart. destruct (JS.split "=" p) as [hp tp], (JS.split "=" q) as [hq tq].
  cbn [tag value]. intros H1 H2. now rewrite H1, H2.
Qed.

Lemma parsePart_normal (part : string) :
  JS.toLowerCase (tag (parsePart part)) = tag (parsePart part)
  /\ JS.trim (tag (parsePart part)) = tag (parsePart part)
  /\ JS.trim (value (parsePart part)) = value (parsePart part).
Proof.
  rewrite parsePart_tag, parsePart_value. repeat split.
  - apply toLowerCase_idem.
  - now rewrite trim_lower, trim_idem.
  - apply trim_idem.
Qed.

Lemma parsePart_render (part : string) :
  parsePart (Island.renderTag (parsePart part)) = parsePart part.
Proof.
  destruct (parsePart_normal part) as (Hl & Ht & Hv).
  destruct (parsePart_with_equals (tag (parsePart part)) (value (parsePart part))
              (parsePart_tag_free part)) as [H1 H2].
  apply parsePart_ext; unfold Island.renderTag.
  - now rewrite H1, Ht, Hl.
  - now rewrite H2, Hv.
Qed.

Lemma filter_all {A : Type} (f : A -> bool) (l : list A) :
  (forall x, In x l -> f x = true) -> filter f l = l.
Proof.
  induction l as [|a l IH]; intros H; [reflexivity|]. cbn [filter].
  rewrite (H a (or_introl eq_refl)), IH; [reflexivity|].
  intros x Hx. apply H. now right.
Qed.

(** Writing each tag of a parsed record as [name=value], the way the page
    shows it, and joining these with semicolons gives a record that parses
    to the same tags. *)
Theorem render_parse_round_trip (record : string) :
  parseDmarcRecord
    (JS.join ";" (map Island.renderTag (parseDmarcRecord record)))
  = parseDmarcRecord record.
Proof.
  set (tags := parseDmarcRecord record).
  destruct tags as [|t0 rest] eqn:E; [reflexivity|]. rewrite <- E.
  assert (Hne : map Island.renderTag tags <> []) by (rewrite E; discriminate).
  assert (Hfree : Forall (fun s => occurs ";" s = false) (map Island.renderTag tags)).
  { apply Forall_forall. intros s Hs. apply in_map_iff in Hs as (t & <- & Ht).
    destruct (tags_free_of_separators record t Ht) as (_ & H1 & H2).
    unfold Island.renderTag. rewrite !occurs_app, H1, H2. reflexivity. }
  rewrite (parseDmarcRecord_map (JS.join _ _)). unfold parts.
  rewrite (split_join ";" _ Hne Hfree).
  assert (Htrim : map JS.trim (map Island.renderTag tags) = map Island.renderTag tags).
  { rewrite map_map. apply map_ext_in. intros t Ht.
    destruct (tags_normal_form record t Ht) as (_ & H1 & H2).
    now apply trim_fixed_pair. }
  rewrite Htrim, filter_all.
  - unfold tags at 1. rewrite parseDmarcRecord_map, !map_map.
    unfold tags. rewrite parseDmarcRecord_map. apply map_ext. apply parsePart_render.
  - intros s Hs. apply in_map_iff in Hs as (t & <- & _).
    unfold Island.renderTag. now destruct (tag t).
Qed.

(** *** Descriptions of unknown tags and values *)

Lemma assoc_absent {A : Type} (key : string) (l : list (string * A)) :
  ~ In key (map fst l) -> assoc key l = None.
Proof.
  induction l as [|[k v] l IH]; [reflexivity|]. cbn [map fst In assoc]. intros H.
  destruct (String.eqb_spec key k) as [-> | _]; [exfalso; apply H; now left|].
  apply IH. intros Hin. apply H. now right.
Qed.

(** A tag whose name is not a property of [tagDescriptions] is described as
    "<name>: <value>", unless its name is [constructor]: then the
    description is the String object that [Object] makes of the value.  No
    other inherited property can be met, tag names being lower-case. *)
Theorem unknown_tag_description (record : string) (t : DmarcTag) :
  In t (parseDmarcRecord record) ->
  ~ In (tag t) knownTags ->
  (tag t <> "constructor" -> description t = VString (tag t ++ ": " ++ value t))
  /\ (tag t = "constructor" -> description t = VStringObject (value t))
  /\ (assoc (tag t) ObjectPrototype <> None -> tag t = "constructor").
Proof.
  intros Ht Hunknown. apply parseDmarcRecord_In in Ht as (part & _ & ->).
  split; [|split].
  - revert Hunknown. unfold parsePart. destruct (JS.split "=" part) as [h rest].
    cbn [tag value description]. intros Hunknown Hc.
    unfold descriptionFn. rewrite (assoc_absent _ _ Hunknown).
    apply String.eqb_neq in Hc. now rewrite Hc.
  - revert Hunknown. unfold parsePart. destruct (JS.split "=" part) as [h rest].
    cbn [tag value description]. intros Hunknown Hc.
    unfold descriptionFn. rewrite (assoc_absent _ _ Hunknown), Hc. reflexivity.
  - rewrite parsePart_tag. apply inherited_lowercase.
Qed.

Lemma description_function (part : string) :
  match description (parsePart part) with
  | VFunction _ =>
      tag (parsePart part) = "p"
      /\ assoc (value (parsePart part)) ObjectPrototype <> None
  | _ =>
      ~ (tag (parsePart part) = "p"
         /\ assoc (value (parsePart part)) ObjectPrototype <> None)
  end.
Proof.
  unfold parsePart. destruct (JS.split "=" part) as [h rest].
  cbn [tag value description].
  generalize (JS.toLowerCase (JS.trim h)) as tn.
  generalize (JS.trim (JS.join "=" rest)) as v. intros v tn.
  unfold descriptionFn, tagDescriptions. cbn [assoc].
  destruct (String.eqb_spec tn "v") as [-> | Nv]; [intros [H _]; discriminate H|].
  destruct (String.eqb_spec tn "p") as [-> | Np].
  { unfold tagDescriptions_p, getProperty. cbn [assoc].
    destruct (String.eqb_spec v "none") as [-> | ?];
      [cbn; intros [_ H]; now apply H|].
    destruct (String.eqb_spec v "quarantine") as [-> | ?];
      [cbn; intros [_ H]; now apply H|].
    destruct (String.eqb_spec v "reject") as [-> | ?];
      [cbn; intros [_ H]; now apply H|].
    destruct (assoc v ObjectPrototype) as [name|] eqn:E; cbn [orElse truthyValue].
    - split; [reflexivity | discriminate].
    - intros [_ H]. now apply H. }
  destruct (String.eqb_spec tn "sp") as [-> | ?]; [intros [H _]; discriminate H|].
  destruct (String.eqb_spec tn "rua") as [-> | ?]; [intros [H _]; discriminate H|].
  destruct (String.eqb_spec tn "ruf") as [-> | ?]; [intros [H _]; discriminate H|].
  destruct (String.eqb_spec tn "pct") as [-> | ?]; [intros [H _]; discriminate H|].
  destruct (String.eqb_spec tn "adkim") as [-> | ?];
    [unfold tagDescriptions_adkim; destruct (String.eqb v "s"); intros [H _]; discriminate H|].
  destruct (String.eqb_spec tn "aspf") as [-> | ?];
    [unfold tagDescriptions_aspf; destruct (String.eqb v "s"); intros [H _]; discriminate H|].
  destruct (String.eqb_spec tn "fo") as [-> | ?]; [intros [H _]; discriminate H|].
  destruct (String.eqb_spec tn "rf") as [-> | ?]; [intros [H _]; discriminate H|].
  destruct (String.eqb_spec tn "ri") as [-> | ?]; [intros [H _]; discriminate H|].
  destruct (String.eqb tn "constructor"); intros [H _]; contradiction.
Qed.

(** In the JSON of the response every tag has a [description] string, but
    for a [p] tag whose value names a property inherited from
    [Object.prototype]: its description is a function, which
    [JSON.stringify] leaves out. *)
Theorem tag_json_description (record : string) (t : DmarcTag) :
  In t (parseDmarcRecord record) ->
  (tag t = "p" /\ assoc (value t) ObjectPrototype <> None ->
   tagToJson t = JObject [ ("tag", JString "p"); ("value", JString (value t)) ])
  /\ (~ (tag t = "p" /\ assoc (value t) ObjectPrototype <> None) ->
      exists d,
        tagToJson t
        = JObject [ ("tag", JString (tag t)); ("value", JString (value t));
                    ("description", JString d) ]).
Proof.
  intros Ht. apply parseDmarcRecord_In in Ht as (part & _ & ->).
  pose proof (description_function part) as H. unfold tagToJson.
  destruct (description (parsePart part)) as [d | d | name]; split.
  - intros Hp. contradiction.
  - intros _. now exists d.
  - intros Hp. contradiction.
  - intros _. now exists d.
  - intros [-> _]. reflexivity.
  - intros Hn. contradiction.
Qed.

(** *** The version tag *)

Lemma wordy_lower (s : string) : wordy (JS.toLowerCase s) = wordy s.
Proof.
  induction s as [|c s IH]; [reflexivity|]. cbn [JS.toLowerCase wordy].
  now rewrite isWhiteSpace_lower, (proj2 (eqb_lower_separator c)), IH.
Qed.

Lemma toLowerCase_app (a b : string) :
  JS.toLowerCase (a ++ b) = JS.toLowerCase a ++ JS.toLowerCase b.
Proof. induction a as [|c a IH]; simpl; [reflexivity | now rewrite IH]. Qed.

Lemma toLowerCase_split (s a b : string) :
  JS.toLowerCase s = a ++ b ->
  exists pre r, s = pre ++ r /\ JS.toLowerCase pre = a /\ JS.toLowerCase r = b.
Proof.
  revert s. induction a as [|k a IH]; intros s H.
  - now exists "", s.
  - destruct s as [|c s]; [discriminate|]. cbn in H. injection H as Hc Hs.
    destruct (IH s Hs) as (pre & r & -> & Hpre & Hr).
    exists (String c pre), r. cbn. now rewrite Hc, Hpre.
Qed.

Lemma split_wordy (pre r : string) :
  wordy pre = true ->
  JS.split ";" (pre ++ r)
  = (pre ++ fst (JS.split ";" r), snd (JS.split ";" r)).
Proof.
  induction pre as [|c pre IH]; cbn [wordy String.append]; intros H.
  - now destruct (JS.split ";" r).
  - apply andb_true_iff in H as [H Hpre]. apply andb_true_iff in H as [_ Hc].
    cbn [JS.split]. rewrite (IH Hpre). apply negb_true_iff in Hc. now rewrite Hc.
Qed.

Lemma trimEnd_wordy (pre r : string) :
  wordy pre = true -> JS.trimEnd (pre ++ r) = pre ++ JS.trimEnd r.
Proof.
  induction pre as [|c pre IH]; cbn [wordy String.append]; intros H; [reflexivity|].
  apply andb_true_iff in H as [H Hpre]. apply andb_true_iff in H as [Hc _].
  apply negb_true_iff in Hc. now rewrite (trimEnd_solid _ _ Hc), (IH Hpre).
Qed.

Lemma trim_wordy (pre r : string) :
  wordy pre = true -> pre <> "" -> JS.trim (pre ++ r) = pre ++ JS.trimEnd r.
Proof.
  intros H Hne. unfold JS.trim. rewrite trimStart_fixed; [now apply trimEnd_wordy|].
  destruct pre as [|c pre]; [congruence|]. cbn in *.
  apply andb_true_iff in H as [H _]. apply andb_true_iff in H as [Hc _].
  now apply negb_true_iff in Hc.
Qed.

Lemma selected_record_first_tag (record : string) :
  qualifies record ->
  exists t rest more,
    parseDmarcRecord record = t :: rest
    /\ tag t = "v"
    /\ JS.toLowerCase (value t) = "dmarc1" ++ more.
Proof.
  intros (tail & Hq).
  destruct (toLowerCase_split record "v=dmarc1" tail Hq) as (pre & r & -> & Hpre & _).
  assert (Hw : wordy pre = true) by (rewrite <- wordy_lower, Hpre; reflexivity).
  assert (Hne : pre <> "") by (intros ->; discriminate Hpre).
  rewrite parseDmarcRecord_map. unfold parts, JS.splitArray.
  rewrite (split_wordy pre r Hw). cbn [map]. rewrite (trim_wordy _ _ Hw Hne).
  set (p := JS.trimEnd (fst (JS.split ";" r))).
  assert (Htruthy : JS.truthy (pre ++ p) = true) by (destruct pre; [congruence | reflexivity]).
  cbn [filter]. rewrite Htruthy. cbn [map].
  destruct pre as [|c0 [|c1 pre']]; try discriminate Hpre.
  cbn [JS.toLowerCase] in Hpre. injection Hpre as H0 H1 Hrest.
  assert (E1 : c1 = "="%char).
  { apply Ascii.eqb_eq. rewrite <- (proj1 (eqb_lower_separator c1)), H1. reflexivity. }
  subst c1.
  assert (E0 : Ascii.eqb c0 "=" = false).
  { rewrite <- (proj1 (eqb_lower_separator c0)), H0. reflexivity. }
  assert (S0 : JS.isWhiteSpace c0 = false).
  { rewrite <- isWhiteSpace_lower, H0. reflexivity. }
  cbn [wordy] in Hw. apply andb_true_iff in Hw as [_ Hw]. apply andb_true_iff in Hw as [_ Hw].
  destruct (parsePart_with_equals (String c0 "") (pre' ++ p)) as [Ht Hv].
  { cbn [occurs]. now rewrite E0. }
  change (String c0 "" ++ "=" ++ pre' ++ p) with (String c0 (String "=" pre') ++ p) in Ht, Hv.
  eexists _, _, (JS.toLowerCase (JS.trimEnd p)). split; [reflexivity|]. split.
  - rewrite Ht. unfold JS.trim. cbn [JS.trimStart]. rewrite S0.
    cbn [JS.trimEnd]. rewrite S0. cbn [JS.toLowerCase]. now rewrite H0.
  - rewrite Hv, trim_wordy, toLowerCase_app, Hrest; [reflexivity | assumption |].
    intros ->. discriminate Hrest.
Qed.

(** *** The success payload *)

(** A success response has at least one tag: the first is the version tag
    [v], whose value starts with [dmarc1], letter case aside. *)
Theorem success_first_tag (w : World) (domain record : string) :
  selects w domain record ->
  exists t rest more,
    field "tags" (body (GET w (Some domain)))
    = Some (JArray (tagToJson t :: map tagToJson rest))
    /\ tag t = "v"
    /\ JS.toLowerCase (value t) = "dmarc1" ++ more.
Proof.
  intros Hsel. rewrite (GET_selected _ _ _ Hsel).
  destruct Hsel as (_ & records & _ & (pre & post & _ & Hq & _)).
  destruct (selected_record_first_tag record Hq) as (t & rest & more & E & Ht & Hv).
  exists t, rest, more. rewrite E. repeat split; assumption.
Qed.

Lemma policyOf_cases (tags : list DmarcTag) :
  policyOf tags <> ""
  /\ (policyOf tags = "none"
      \/ exists t, In t tags /\ tag t = "p" /\ value t = policyOf tags).
Proof.
  unfold policyOf. destruct (find _ tags) as [t|] eqn:E.
  - apply find_some in E as [Hin Hp]. apply String.eqb_eq in Hp.
    destruct (value t) as [|c v] eqn:Ev; cbn [JS.truthy].
    + split; [discriminate | now left].
    + split; [discriminate|]. right. exists t. now rewrite Ev.
  - split; [discriminate | now left].
Qed.

(** In a success response the policy is never empty: it is "none" or the
    value, as written, of a [p] tag of the record, and the summary is the
    one of that policy. *)
Theorem success_policy (w : World) (domain record : string) :
  selects w domain record ->
  exists policy,
    field "policy" (body (GET w (Some domain))) = Some (JString policy)
    /\ field "policyDescription" (body (GET w (Some domain)))
       = Some (JString (getPolicyDescription policy))
    /\ policy <> ""
    /\ (policy = "none"
        \/ exists t, In t (parseDmarcRecord record) /\ tag t = "p" /\ value t = policy).
Proof.
  intros Hsel. destruct (GET_selected_policy _ _ _ Hsel) as [Hp Hd].
  exists (policyOf (parseDmarcRecord record)).
  destruct (policyOf_cases (parseDmarcRecord record)) as [Hne Hcases].
  repeat split; assumption.
Qed.

(** A request with a non-empty domain asks the resolver exactly once,
    whether the resolver answers or fails, for the name [_dmarc.] followed
    by the normalized domain. *)
Theorem single_query (w : World) (domain : string) :
  domain <> "" ->
  queriesOf w (Some domain) = ["_dmarc." ++ cleanDomainOf domain].
Proof.
  intros Hd.
  destruct (resolveDns w ("_dmarc." ++ cleanDomainOf domain)) as [records | err] eqn:E.
  - exact (proj2 (GET_resolved w domain records Hd E)).
  - exact (proj2 (GET_rejected w domain err Hd E)).
Qed.

(** *** Shape of the normalized domain *)

Lemma afterPrefix_suffix (p s rest : string) :
  JS.afterPrefix p s = Some rest -> s = p ++ rest.
Proof.
  revert s. induction p as [|a p IH]; intros s; cbn [JS.afterPrefix String.append].
  - now intros [= ->].
  - destruct s as [|b s]; [discriminate|].
    destruct (Ascii.eqb_spec a b) as [-> | _]; [|discriminate].
    intros H. now rewrite (IH s H).
Qed.

Lemma stripLeading_suffix (p s : string) : exists pre, s = pre ++ stripLeading p s.
Proof.
  unfold stripLeading. destruct (JS.afterPrefix p s) as [rest|] eqn:E.
  - exists p. now apply afterPrefix_suffix.
  - now exists "".
Qed.

Lemma replace_path_prefix (s : string) : exists post, s = JS.replace_path s ++ post.
Proof.
  induction s as [|c s (post & IH)]; [now exists ""|]. cbn [JS.replace_path].
  destruct (Ascii.eqb c "/" && JS.dotStarToEnd s); [now exists (String c s)|].
  exists post. cbn. now rewrite <- IH.
Qed.

Lemma beforeFirst_free (c : ascii) (s : string) : occurs c (beforeFirst c s) = false.
Proof.
  induction s as [|a s IH]; [reflexivity|]. cbn [beforeFirst].
  destruct (Ascii.eqb a c) eqn:E; [reflexivity|]. cbn [occurs]. now rewrite E, IH.
Qed.

(** Normalization only removes code units at the two ends of the domain,
    and on a domain with no line terminator it leaves no slash. *)
Theorem cleanDomain_shape (domain : string) :
  infix (cleanDomainOf domain) domain
  /\ (JS.dotStarToEnd domain = true -> occurs "/" (cleanDomainOf domain) = false).
Proof.
  split.
  - unfold cleanDomainOf.
    destruct (stripLeading_suffix "_dmarc." domain) as (p1 & H1).
    change (stripLeading "_dmarc." domain) with (JS.replace_dmarc_prefix domain) in H1.
    set (s1 := JS.replace_dmarc_prefix domain) in *.
    assert (H2 : exists p2, s1 = p2 ++ JS.replace_scheme s1).
    { rewrite replace_scheme_spec.
      destruct (JS.afterPrefix "http://" s1) as [rest|] eqn:E.
      - exists "http://". now apply afterPrefix_suffix.
      - apply stripLeading_suffix. }
    destruct H2 as (p2 & H2). set (s2 := JS.replace_scheme s1) in *.
    destruct (replace_path_prefix s2) as (post & H3).
    exists (p1 ++ p2), post. rewrite H1 at 1. rewrite H2 at 1. rewrite H3 at 1.
    now rewrite !append_assoc.
  - intros H. rewrite (cleanDomainOf_spec domain H). unfold normalizeSpec.
    apply beforeFirst_free.
Qed.

(** Each replacement is applied once, in a fixed order: a [_dmarc.] label
    behind a scheme, or behind another [_dmarc.] label, is kept, while a
    scheme behind a [_dmarc.] label is removed. *)
Theorem cleanDomain_one_layer (host : string) :
  cleanDomainOf ("https://_dmarc." ++ host) = "_dmarc." ++ JS.replace_path host
  /\ cleanDomainOf ("http://_dmarc." ++ host) = "_dmarc." ++ JS.replace_path host
  /\ cleanDomainOf ("_dmarc._dmarc." ++ host) = "_dmarc." ++ JS.replace_path host
  /\ cleanDomainOf ("_dmarc.https://" ++ host) = JS.replace_path host.
Proof. repeat split. Qed.

(** *** The island *)

Lemma hashGroup_sound (s d : string) :
  Island.hashGroup s = Some d ->
  d <> "" /\ JS.dotStarToEnd d = true
  /\ exists tail, s = d ++ tail /\ Island.hashTail tail = true.
Proof.
  revert d. induction s as [|c s IH]; intros d; cbn [Island.hashGroup]; [discriminate|].
  destruct (JS.isLineTerminator c) eqn:Hc; [discriminate|].
  destruct (Island.hashTail s) eqn:Ht.
  - intros [= <-]. split; [discriminate|]. split; [cbn; now rewrite Hc|].
    now exists s.
  - destruct (Island.hashGroup s) as [g|]; [|discriminate]. intros [= <-].
    destruct (IH g eq_refl) as (_ & Hg & tail & -> & Htail).
    split; [discriminate|]. split; [cbn; now rewrite Hc, Hg|].
    now exists tail.
Qed.

(** What [parseHash] returns is a non-empty run of code units after the
    hash sign, free of line terminators, and what follows it in the hash
    is at most one slash and then white space. *)
Theorem parseHash_sound (hash d : string) :
  Island.parseHash hash = Some d ->
  d <> "" /\ JS.dotStarToEnd d = true
  /\ exists tail, hash = "#" ++ d ++ tail /\ Island.hashTail tail = true.
Proof.
  destruct hash as [|c rest]; [discriminate|]. cbn [Island.parseHash].
  destruct (Ascii.eqb_spec c "#") as [-> | _]; [|discriminate].
  intros H. destruct (hashGroup_sound rest d H) as (Hne & Hd & tail & -> & Ht).
  repeat split; try assumption. now exists tail.
Qed.

Lemma allWhiteSpace_last (s t : string) (c : ascii) :
  lastChar s = Some c -> JS.isWhiteSpace c = false ->
  Island.allWhiteSpace (s ++ t) = false.
Proof.
  induction s as [|a s IH]; [discriminate|]. cbn [lastChar String.append Island.allWhiteSpace].
  destruct s as [|b s].
  - intros [= ->] Hc. now rewrite Hc.
  - intros H Hc. rewrite (IH H Hc). apply andb_false_r.
Qed.

Lemma hashTail_last (s t : string) (c : ascii) :
  lastChar s = Some c -> JS.isWhiteSpace c = false -> c <> "/"%char ->
  Island.hashTail (s ++ t) = false.
Proof.
  intros Hl Hc Hs. unfold Island.hashTail. rewrite (allWhiteSpace_last s t c Hl Hc).
  destruct s as [|a s]; [discriminate|]. cbn [String.append orb].
  destruct (Ascii.eqb_spec a "/") as [-> | _]; [|reflexivity]. cbn [andb].
  destruct s as [|b s].
  - cbn in Hl. injection Hl as <-. congruence.
  - apply (allWhiteSpace_last (String b s) t c); assumption.
Qed.

Lemma hashGroup_complete (d tail : string) (c : ascii) :
  JS.dotStarToEnd d = true ->
  lastChar d = Some c -> JS.isWhiteSpace c = false -> c <> "/"%char ->
  Island.hashTail tail = true ->
  Island.hashGroup (d ++ tail) = Some d.
Proof.
  intros Hd Hl Hc Hs Ht. induction d as [|a d IH]; [discriminate|].
  cbn [JS.dotStarToEnd] in Hd. apply andb_true_iff in Hd as [Ha Hd].
  apply negb_true_iff in Ha. cbn [String.append Island.hashGroup]. rewrite Ha.
  destruct d as [|b d].
  - cbn [String.append]. now rewrite Ht.
  - rewrite (hashTail_last (String b d) tail c Hl Hc Hs).
    now rewrite (IH Hd Hl).
Qed.

Lemma trimEnd_fixed_last (s : string) :
  JS.trimEnd s = s -> s <> "" -> exists c, lastChar s = Some c /\ JS.isWhiteSpace c = false.
Proof.
  induction s as [|a s IH]; [congruence|]. intros H _. cbn [JS.trimEnd] in H.
  destruct s as [|b s].
  - cbn in H. exists a. split; [reflexivity|]. now destruct (JS.isWhiteSpace a).
  - destruct (JS.trimEnd (String b s)) as [|x y] eqn:E.
    + destruct (JS.isWhiteSpace a); discriminate.
    + assert (H' : String x y = String b s) by congruence.
      destruct (IH H' ltac:(discriminate)) as (c & Hl & Hc).
      now exists c.
Qed.

(** A trimmed, non-empty domain with no line terminator that does not end
    in a slash is read back from the hash [#<domain>], also with a slash
    or white space after it. *)
Theorem parseHash_round_trip (d ws : string) :
  JS.trim d = d -> d <> "" ->
  JS.dotStarToEnd d = true ->
  lastChar d <> Some "/"%char ->
  Island.allWhiteSpace ws = true ->
  Island.parseHash ("#" ++ d ++ ws) = Some d
  /\ Island.parseHash ("#" ++ d ++ "/" ++ ws) = Some d.
Proof.
  intros Ht Hne Hd Hs Hws.
  destruct (trimEnd_fixed_last d (trim_fixed_trimEnd d Ht) Hne) as (c & Hl & Hc).
  assert (Hc' : c <> "/"%char) by (intros ->; now apply Hs).
  cbn [String.append Island.parseHash]. change (Ascii.eqb "#" "#") with true. cbv iota.
  split; apply (hashGroup_complete d _ c); try assumption.
  unfold Island.hashTail. now rewrite Hws.
Qed.

Lemma settled_error (d : string) (loading : bool) (e : Json) :
  Island.truthyJson (Some e) = true ->
  settled {| Island.domain := d; Island.isLoading := loading;
             Island.result := None; Island.error := Some e |}.
Proof. intros H. left. split; [reflexivity|]. now exists e. Qed.

(** When [handleLookup] returns, the domain is unchanged and the signals
    show exactly one outcome.  A domain empty after trimming sends no
    request and leaves [isLoading] alone; otherwise one request is sent,
    with the trimmed domain, and [isLoading] is false. *)
Theorem handleLookup_outcome (fetch : string -> Island.Fetched) (s : Island.Signals) :
  Island.domain (fst (Island.handleLookup fetch s)) = Island.domain s
  /\ settled (fst (Island.handleLookup fetch s))
  /\ (JS.trim (Island.domain s) = "" ->
      snd (Island.handleLookup fetch s) = []
      /\ Island.isLoading (fst (Island.handleLookup fetch s)) = Island.isLoading s
      /\ Island.error (fst (Island.handleLookup fetch s))
         = Some (JString "Please enter a domain name"))
  /\ (JS.trim (Island.domain s) <> "" ->
      snd (Island.handleLookup fetch s) = [JS.trim (Island.domain s)]
      /\ Island.isLoading (fst (Island.handleLookup fetch s)) = false).
Proof.
  unfold Island.handleLookup.
  destruct (JS.trim (Island.domain s)) as [|c d] eqn:E; cbn [JS.truthy negb].
  - cbn [fst snd Island.domain Island.isLoading Island.error].
    split; [reflexivity|]. split; [now apply settled_error|].
    split; [now intros _ | congruence].
  - cbv zeta. cbn [fst snd].
    assert (Hrest : forall st : Island.Signals,
               Island.domain st = Island.domain s ->
               Island.isLoading st = false ->
               settled st ->
               Island.domain st = Island.domain s
               /\ settled st
               /\ (String c d = "" ->
                   [String c d] = []
                   /\ Island.isLoading st = Island.isLoading s
                   /\ Island.error st = Some (JString "Please enter a domain name"))
               /\ (String c d <> "" ->
                   [String c d] = [String c d] /\ Island.isLoading st = false)).
    { intros st H1 H2 H3. repeat split; try assumption. all: discriminate. }
    destruct (fetch (String c d)) as [data|];
      [|apply Hrest; [reflexivity | reflexivity | now apply settled_error]].
    destruct data as [|b|m|z|items|fields];
      try (apply Hrest; [reflexivity | reflexivity | now apply settled_error]).
    destruct (Island.truthyJson (field "success" (JObject fields))) eqn:Hs; cbn [negb].
    + apply Hrest; [reflexivity | reflexivity |].
      right. split; [reflexivity|]. now exists (JObject fields).
    + apply Hrest; [reflexivity | reflexivity |].
      destruct (field "error" (JObject fields)) as [e|]; [|now apply settled_error].
      destruct (Island.truthyJson (Some e)) eqn:He; now apply settled_error.
Qed.

Lemma GET_nonempty_shape (w : World) (domain : string) :
  domain <> "" ->
  (exists fields,
     GET w (Some domain) = Response_json (JObject (("success", JBool true) :: fields)) 200)
  \/ (exists message code,
        GET w (Some domain) = Response_json (errorBody message) code
        /\ (code = 404 \/ code = 500)%Z).
Proof.
  intros Hd.
  destruct (resolveDns w ("_dmarc." ++ cleanDomainOf domain)) as [records | err] eqn:E.
  - destruct (GET_resolved w domain records Hd E) as [-> _].
    destruct (find isDmarc (map recordText records)) as [record|] eqn:F.
    + rewrite (handler_resolved_found _ _ _ _ F). left. now eexists.
    + rewrite (handler_resolved_missing _ _ _ F). right. eexists _, _. split; [reflexivity | now left].
  - destruct (GET_rejected w domain err Hd E) as [-> _]. unfold handler_catch. right.
    destruct (JS.includes (errorMessageOf err) "no record"); eexists _, _;
      (split; [reflexivity|]); [now left | now right].
Qed.

(** The island against the API route: a lookup it sends never gets the 400
    response; on status 200 the result is the body and no error is set;
    otherwise no result is set and the error is the message of the body,
    or "DMARC lookup failed" when that message is empty. *)
Theorem island_server (w : World) (s : Island.Signals) :
  JS.trim (Island.domain s) <> "" ->
  let response := GET w (Some (JS.trim (Island.domain s))) in
  let s' := fst (Island.handleLookup (serverFetch w) s) in
  status response <> 400%Z
  /\ (status response = 200%Z ->
      Island.result s' = Some (body response) /\ Island.error s' = None)
  /\ (status response <> 200%Z ->
      Island.result s' = None
      /\ exists message,
           body response = errorBody message
           /\ Island.error s'
              = Some (JString (if JS.truthy message then message
                               else "DMARC lookup failed"))).
Proof.
  intros Hne. unfold Island.handleLookup, serverFetch.
  destruct (JS.trim (Island.domain s)) as [|c d] eqn:E; [congruence|].
  cbn [JS.truthy negb fst]. cbv zeta.
  destruct (GET_nonempty_shape w (String c d) Hne)
    as [(fields & ->) | (message & code & -> & Hcode)].
  - cbn. split; [discriminate|]. split; [now intros _ | intros H; now elim H].
  - unfold errorBody. cbn [body Response_json status].
    cbn [field assoc String.eqb Ascii.eqb Bool.eqb Island.truthyJson negb].
    split; [destruct Hcode; subst; discriminate|]. split.
    + intros H. destruct Hcode; subst; discriminate.
    + intros _. destruct message as [|a m]; cbn; (split; [reflexivity|]); eexists; split; reflexivity.
Qed.

(** A [p], [sp] or [fo] tag whose value is neither one of the listed values
    nor the name of an inherited property is described by the fixed prefix
    followed by the value as written. *)
Theorem unknown_value_description (record : string) (t : DmarcTag) :
  In t (parseDmarcRecord record) ->
  assoc (value t) ObjectPrototype = None ->
  (tag t = "p" -> ~ In (value t) ["none"; "quarantine"; "reject"] ->
   description t = VString ("Policy: " ++ value t))
  /\ (tag t = "sp" -> ~ In (value t) ["none"; "quarantine"; "reject"] ->
      description t = VString ("Subdomain policy: " ++ value t))
  /\ (tag t = "fo" -> ~ In (value t) ["0"; "1"; "d"; "s"] ->
      description t = VString ("Failure reporting: " ++ value t)).
Proof.
  intros Ht. apply parseDmarcRecord_In in Ht as (part & _ & ->).
  unfold parsePart. destruct (JS.split "=" part) as [h rest].
  cbn [tag value description].
  generalize (JS.toLowerCase (JS.trim h)) as tn.
  generalize (JS.trim (JS.join "=" rest)) as v. intros v tn Hproto.
  split; [|split]; intros -> Hv.
  - change (descriptionFn "p") with (Some tagDescriptions_p).
    unfold tagDescriptions_p, getProperty. rewrite assoc_absent by exact Hv.
    now rewrite Hproto.
  - change (descriptionFn "sp") with (Some tagDescriptions_sp).
    unfold tagDescriptions_sp, getProperty. rewrite assoc_absent by exact Hv.
    now rewrite Hproto.
  - change (descriptionFn "fo") with (Some tagDescriptions_fo).
    unfold tagDescriptions_fo, getProperty. rewrite assoc_absent by exact Hv.
    now rewrite Hproto.
Qed.

Lemma whitespace_not_v (c : ascii) :
  JS.isWhiteSpace c = true ->
  Ascii.eqb "v" (JS.toLowerCaseChar c) = false /\ Ascii.eqb c ";" = false.
Proof.
  destruct c as [[] [] [] [] [] [] [] []]; intros H; try discriminate H; split; reflexivity.
Qed.

(** The parser trims and the selection does not: a record with a leading
    white space parses to the same tags as without it, and is never
    selected as a DMARC record. *)
Theorem leading_white_space (c : ascii) (record : string) :
  JS.isWhiteSpace c = true ->
  parseDmarcRecord (String c record) = parseDmarcRecord record
  /\ ~ qualifies (String c record).
Proof.
  intros Hc. destruct (whitespace_not_v c Hc) as [Hv Hs]. split.
  - rewrite !parseDmarcRecord_map. unfold parts, JS.splitArray. cbn [JS.split].
    destruct (JS.split ";" record) as [h t]. rewrite Hs. cbn [map].
    unfold JS.trim at 1. cbn [JS.trimStart]. rewrite Hc. reflexivity.
  - intros Hq. apply isDmarc_qualifies in Hq. unfold isDmarc in Hq.
    cbn [JS.toLowerCase JS.startsWith] in Hq. rewrite Hv in Hq. discriminate Hq.
Qed.

(** *** Instances *)

Lemma tags_normal_form_witness :
  JS.toLowerCase (tag (parsePart "RUA = MailTo:a@b")) = tag (parsePart "RUA = MailTo:a@b")
  /\ JS.trim (tag (parsePart "RUA = MailTo:a@b")) = tag (parsePart "RUA = MailTo:a@b")
  /\ JS.trim (value (parsePart "RUA = MailTo:a@b")) = value (parsePart "RUA = MailTo:a@b").
Proof.
  apply (tags_normal_form "v=DMARC1; RUA = MailTo:a@b ").
  right. left. reflexivity.
Defined.

Lemma tags_free_of_separators_witness :
  occurs "=" (tag (parsePart "rua=mailto:a=b")) = false
  /\ occurs ";" (tag (parsePart "rua=mailto:a=b")) = false
  /\ occurs ";" (value (parsePart "rua=mailto:a=b")) = false.
Proof.
  apply (tags_free_of_separators "v=DMARC1;rua=mailto:a=b;").
  right. left. reflexivity.
Defined.

Lemma unknown_tag_description_witness :
  description (parsePart "zz=foo") = VString "zz: foo".
Proof.
  refine (proj1 (unknown_tag_description "v=DMARC1; zz=foo" (parsePart "zz=foo") _ _) _).
  - right. left. reflexivity.
  - cbv. intuition discriminate.
  - discriminate.
Defined.

Lemma tag_json_description_witness :
  tagToJson (parsePart "p=toString")
  = JObject [ ("tag", JString "p"); ("value", JString "toString") ].
Proof.
  refine (proj1 (tag_json_description "v=DMARC1; p=toString" (parsePart "p=toString") _) _).
  - right. left. reflexivity.
  - split; [reflexivity | discriminate].
Defined.

Lemma success_first_tag_witness :
  exists t rest more,
    field "tags" (body (GET (worldWith [Single "V=dmarc1 ; p=none"]) (Some "example.com")))
    = Some (JArray (tagToJson t :: map tagToJson rest))
    /\ tag t = "v"
    /\ JS.toLowerCase (value t) = "dmarc1" ++ more.
Proof.
  apply (success_first_tag (worldWith [Single "V=dmarc1 ; p=none"]) "example.com"
           "V=dmarc1 ; p=none").
  apply selects_single; [discriminate | apply isDmarc_qualifies; reflexivity].
Defined.

Lemma success_policy_witness :
  exists policy,
    field "policy"
      (body (GET (worldWith [Single "v=DMARC1; p=Quarantine"]) (Some "example.com")))
    = Some (JString policy)
    /\ field "policyDescription"
         (body (GET (worldWith [Single "v=DMARC1; p=Quarantine"]) (Some "example.com")))
       = Some (JString (getPolicyDescription policy))
    /\ policy <> ""
    /\ (policy = "none"
        \/ exists t, In t (parseDmarcRecord "v=DMARC1; p=Quarantine")
                     /\ tag t = "p" /\ value t = policy).
Proof.
  apply (success_policy (worldWith [Single "v=DMARC1; p=Quarantine"]) "example.com").
  apply selects_single; [discriminate | apply isDmarc_qualifies; reflexivity].
Defined.

Lemma single_query_witness :
  queriesOf sampleWorld (Some "https://absent.example/x") = ["_dmarc.absent.example"].
Proof. apply (single_query sampleWorld "https://absent.example/x"). discriminate. Defined.

Lemma cleanDomain_shape_witness :
  occurs "/" (cleanDomainOf "http://example.com/a/b") = false.
Proof. apply (proj2 (cleanDomain_shape "http://example.com/a/b")). reflexivity. Defined.

Lemma parseHash_sound_witness :
  exists tail, "#example.com/  " = "#" ++ "example.com" ++ tail
               /\ Island.hashTail tail = true.
Proof.
  exact (proj2 (proj2 (parseHash_sound "#example.com/  " "example.com" eq_refl))).
Defined.

Lemma parseHash_round_trip_witness :
  Island.parseHash ("#" ++ "example.com" ++ "") = Some "example.com"
  /\ Island.parseHash ("#" ++ "example.com" ++ "/" ++ "") = Some "example.com".
Proof.
  apply (parseHash_round_trip "example.com" "");
    [reflexivity | discriminate | reflexivity | discriminate | reflexivity].
Defined.

Lemma handleLookup_outcome_witness :
  snd (Island.handleLookup (serverFetch sampleWorld)
         {| Island.domain := "  "; Island.isLoading := false;
            Island.result := None; Island.error := None |}) = []
  /\ snd (Island.handleLookup (serverFetch sampleWorld)
            {| Island.domain := " example.com "; Island.isLoading := false;
               Island.result := None; Island.error := None |}) = ["example.com"].
Proof.
  split.
  - refine (proj1 (proj1 (proj2 (proj2 (handleLookup_outcome _ _))) _)). reflexivity.
  - refine (proj1 (proj2 (proj2 (proj2 (handleLookup_outcome (serverFetch sampleWorld)
              {| Island.domain := " example.com "; Island.isLoading := false;
                 Island.result := None; Island.error := None |}))) _)).
    discriminate.
Defined.

Lemma island_server_witness :
  Island.result
    (fst (Island.handleLookup (serverFetch sampleWorld)
            {| Island.domain := " plain.example "; Island.isLoading := false;
               Island.result := None; Island.error := None |})) = None.
Proof.
  refine (proj1 (proj2 (proj2 (island_server sampleWorld
            {| Island.domain := " plain.example "; Island.isLoading := false;
               Island.result := None; Island.error := None |} _)) _)).
  - discriminate.
  - discriminate.
Defined.

Lemma unknown_value_description_witness :
  description (parsePart "sp=block") = VString "Subdomain policy: block".
Proof.
  refine (proj1 (proj2 (unknown_value_description "v=DMARC1; sp=block"
                          (parsePart "sp=block") _ _)) _ _).
  - right. left. reflexivity.
  - reflexivity.
  - reflexivity.
  - cbv. intuition discriminate.
Defined.

Lemma leading_white_space_witness :
  parseDmarcRecord " v=DMARC1; p=none" = parseDmarcRecord "v=DMARC1; p=none"
  /\ ~ qualifies " v=DMARC1; p=none".
Proof. apply (leading_white_space " " "v=DMARC1; p=none"). reflexivity. Defined.
